(** * Work Item Intelligence Agent: classification and sprint state

    A shallow embedding of [classificationService.ts] (the rule-based
    classifier) and [stateManagementService.ts] (the in-memory sprint store
    with its JSON export and import), with the properties of the
    specification proved about it.
    Parts V to VIII add the parts of [index.ts], [azureDevOpsService.ts],
    [copilotStudioNotificationService.ts] and [teamsNotificationService.ts]
    that compute on work items and classifications, and further properties
    of the classifier, of the store and of these services.

    Conventions.
    - A JavaScript string is a [string]; its characters stand for code units.
      [String.prototype.toLowerCase] is a parameter of the classifier, so
      every statement holds for whatever lowercasing the platform performs.
    - A JavaScript number that the program uses as an integer (an id, an enum
      numeral, a size) is a [Z] or a [nat]; the classifier's confidence is a
      binary64 [float], computed with the IEEE operations.
    - A [Map] is an insertion-ordered association list; [Map.prototype.set]
      keeps the place of a key that is already there.
    - A method of the store is a state transformer that ends normally or
      throws. The clock, [JSON] and [Date] are parameters. *)

From Stdlib Require Import String Ascii List ZArith Bool Lia PrimFloat Permutation.
From Stdlib Require Uint63 DecimalString DecimalZ.
Import ListNotations.

#[local] Set Warnings "-inexact-float,-register-all".
#[local] Open Scope string_scope.
#[local] Open Scope list_scope.

(* ================================================================== *)
(** * Part I: the program *)
(* ================================================================== *)

(** ** types.ts *)

Inductive WorkItemType : Type :=
| Bug | Feature | Task | UserStory | Epic.

Inductive Priority : Type :=
| Critical | High | Medium | Low.

(** The numeral of a [Priority] member ([Critical = 1], ...). *)
Definition Priority_numeral (p : Priority) : Z :=
  match p with
  | Critical => 1
  | High => 2
  | Medium => 3
  | Low => 4
  end.

(** The string of a [WorkItemType] member. *)
Definition WorkItemType_string (t : WorkItemType) : string :=
  match t with
  | Bug => "Bug"
  | Feature => "Feature"
  | Task => "Task"
  | UserStory => "User Story"
  | Epic => "Epic"
  end.

Definition WorkItemType_eqb (a b : WorkItemType) : bool :=
  match a, b with
  | Bug, Bug | Feature, Feature | Task, Task
  | UserStory, UserStory | Epic, Epic => true
  | _, _ => false
  end.

Record WorkItem : Type := {
  id : Z;
  title : string;
  type : WorkItemType;
  state : string;
  assignedTo : option string;
  description : option string;
  tags : option (list string);
  priority : option Priority;
  sprint : option string;
  url : option string
}.

Record ClassificationResult : Type := {
  workItemId : Z;
  suggestedTags : list string;
  suggestedPriority : Priority;
  confidence : float;
  reasoning : string
}.

(** ** Strings and numbers of the platform *)

(** [s.startsWith(searchString)]. *)
Fixpoint startsWith (s searchString : string) : bool :=
  match searchString, s with
  | EmptyString, _ => true
  | String a p, String b s' => Ascii.eqb a b && startsWith s' p
  | String _ _, EmptyString => false
  end.

(** [s.includes(searchString)]: [searchString] occurs in [s] as a substring. *)
Fixpoint includes (s searchString : string) : bool :=
  startsWith s searchString
  || match s with
     | EmptyString => false
     | String _ s' => includes s' searchString
     end.

(** White space and line terminators, as [trim] strips them (the code units
    below 256: TAB, LF, VT, FF, CR, SP and NBSP). *)
Definition isWhiteSpace (c : ascii) : bool :=
  let n := nat_of_ascii c in
  ((9 <=? n) && (n <=? 13) || (n =? 32) || (n =? 160))%nat.

Fixpoint trimStart (s : string) : string :=
  match s with
  | EmptyString => EmptyString
  | String c s' => if isWhiteSpace c then trimStart s' else s
  end.

Fixpoint trimEnd (s : string) : string :=
  match s with
  | EmptyString => EmptyString
  | String c s' =>
      match trimEnd s' with
      | EmptyString => if isWhiteSpace c then EmptyString else String c EmptyString
      | t => String c t
      end
  end.

(** [s.trim()]. *)
Definition trim (s : string) : string := trimEnd (trimStart s).

(** [array.push(x)], as the new contents of the array. *)
Definition push {A : Type} (array : list A) (x : A) : list A := array ++ [x].

(** [Math.min(a, b)]: NaN if either is NaN, and [-0] below [+0]. *)
Definition Math_min (a b : float) : float :=
  if PrimFloat.is_nan a then a
  else if PrimFloat.is_nan b then b
  else if PrimFloat.ltb a b then a
  else if PrimFloat.ltb b a then b
  else if PrimFloat.is_zero a && PrimFloat.get_sign a then a
  else b.

(** The number that an array length is. *)
Definition Number_of_nat (n : nat) : float :=
  of_uint63 (Uint63.of_Z (Z.of_nat n)).

(** ** classificationService.ts *)

Section ClassificationService.

(** [String.prototype.toLowerCase]. *)
Variable toLowerCase : string -> string.

(** The local variables that [classifyWorkItem] assigns as it goes. *)
Record Locals : Type := {
  l_suggestedTags : list string;
  l_suggestedPriority : Priority;
  l_reasoning : string
}.

(** [suggestedPriority = p; suggestedTags.push(tag); reasoning += fragment]. *)
Definition setTier (p : Priority) (tag fragment : string) (l : Locals) : Locals :=
  {| l_suggestedTags := push (l_suggestedTags l) tag;
     l_suggestedPriority := p;
     l_reasoning := l_reasoning l ++ fragment |}.

(** [suggestedPriority = p; reasoning += fragment]. *)
Definition setPriority (p : Priority) (fragment : string) (l : Locals) : Locals :=
  {| l_suggestedTags := l_suggestedTags l;
     l_suggestedPriority := p;
     l_reasoning := l_reasoning l ++ fragment |}.

(** [suggestedTags.push(tag); reasoning += fragment]. *)
Definition addTag (tag fragment : string) (l : Locals) : Locals :=
  {| l_suggestedTags := push (l_suggestedTags l) tag;
     l_suggestedPriority := l_suggestedPriority l;
     l_reasoning := l_reasoning l ++ fragment |}.

(** [suggestedTags.push(tag)]. *)
Definition pushTag (tag : string) (l : Locals) : Locals :=
  {| l_suggestedTags := push (l_suggestedTags l) tag;
     l_suggestedPriority := l_suggestedPriority l;
     l_reasoning := l_reasoning l |}.

(** [if (condition) { body }]. *)
Definition when (condition : bool) (body : Locals -> Locals) (l : Locals) : Locals :=
  if condition then body l else l.

(** The local [text]: the lowercased title, a space, and the lowercased
    description ([''] when the description is absent). *)
Definition haystack (workItem : WorkItem) : string :=
  let title := toLowerCase (title workItem) in
  let description :=
    toLowerCase (match description workItem with Some d => d | None => "" end) in
  title ++ " " ++ description.

Definition classifyWorkItem (workItem : WorkItem) : ClassificationResult :=
  let l := {| l_suggestedTags := [];
              l_suggestedPriority := Medium;
              l_reasoning := "" |} in
  let text := haystack workItem in
  (* Critical priority keywords / High priority keywords / Low priority keywords *)
  let l :=
    if includes text "critical"
       || includes text "production down"
       || includes text "security"
       || includes text "data loss"
       || WorkItemType_eqb (type workItem) Bug && includes text "blocker"
    then setTier Critical "Critical" "Critical priority due to severity keywords. " l
    else if includes text "urgent"
            || includes text "important"
            || includes text "customer impact"
            || includes text "high priority"
    then setTier High "HighPriority" "High priority due to urgency indicators. " l
    else if includes text "nice to have"
            || includes text "low priority"
            || includes text "enhancement"
            || includes text "cosmetic"
    then setPriority Low "Low priority - non-critical enhancement. " l
    else l in
  (* Technical area classification *)
  let l := when (includes text "ui" || includes text "frontend"
                 || includes text "interface")
                (addTag "UI" "UI component identified. ") l in
  let l := when (includes text "backend" || includes text "api"
                 || includes text "server")
                (addTag "Backend" "Backend component identified. ") l in
  let l := when (includes text "database" || includes text "sql"
                 || includes text "data")
                (addTag "Database" "Database component identified. ") l in
  let l := when (includes text "performance" || includes text "slow"
                 || includes text "optimization")
                (addTag "Performance" "Performance concern identified. ") l in
  let l := when (includes text "security" || includes text "authentication"
                 || includes text "authorization")
                (addTag "Security" "Security aspect identified. ") l in
  let l := when (includes text "test" || includes text "testing"
                 || includes text "qa")
                (addTag "Testing" "Testing related. ") l in
  let l := when (includes text "documentation" || includes text "docs"
                 || includes text "readme")
                (addTag "Documentation" "Documentation work. ") l in
  (* Work item type specific tags *)
  let l :=
    if WorkItemType_eqb (type workItem) Bug then pushTag "Bug" l
    else if WorkItemType_eqb (type workItem) Feature then pushTag "Feature" l
    else if WorkItemType_eqb (type workItem) Epic then pushTag "Epic" l
    else l in
  (* State-based tags *)
  let l := when (String.eqb (toLowerCase (state workItem)) "new")
                (addTag "NeedsReview" "New work item needs review. ") l in
  (* Calculate confidence (simplified) *)
  let confidence :=
    Math_min 0.95 (0.6 + (Number_of_nat (length (l_suggestedTags l)) * 0.1))%float in
  {| workItemId := id workItem;
     suggestedTags := l_suggestedTags l;
     suggestedPriority := l_suggestedPriority l;
     confidence := confidence;
     reasoning :=
       match trim (l_reasoning l) with
       | EmptyString => "Standard classification applied."
       | r => r
       end |}.

(** [classifyWorkItems]: one result per item, in the order of the input. *)
Definition classifyWorkItems (workItems : list WorkItem) : list ClassificationResult :=
  fold_left (fun results workItem => push results (classifyWorkItem workItem))
            workItems [].

End ClassificationService.

(** ** JavaScript values *)

(** A [Date]: its time value in milliseconds, or an invalid date. *)
Inductive Date : Type :=
| Date_at (time : Z)
| Invalid_Date.

(** The values that the store holds and that [JSON.parse] returns. A number
    is [VInt z] when it is given by its integer value and [VFloat f] when it
    is given as a binary64. *)
Inductive jsval : Type :=
| VUndefined
| VNull
| VBool (b : bool)
| VInt (z : Z)
| VFloat (f : float)
| VStr (s : string)
| VDate (d : Date)
| VArr (elements : list jsval)
| VObj (properties : list (string * jsval)).

Inductive Error : Type :=
| SyntaxError
| TypeError.

(** How an evaluation ends. *)
Inductive completion (A : Type) : Type :=
| Normal (a : A)
| Throw (e : Error).
Arguments Normal {A} a.
Arguments Throw {A} e.

(** The binary64 of an integer (exact up to 2^53). *)
Definition float_of_Z (z : Z) : float :=
  if (z <? 0)%Z then PrimFloat.opp (of_uint63 (Uint63.of_Z (- z)))
  else of_uint63 (Uint63.of_Z z).

(** [x === y] on numbers. *)
Definition Number_equal (x y : jsval) : bool :=
  match x, y with
  | VInt a, VInt b => Z.eqb a b
  | VFloat a, VFloat b => PrimFloat.eqb a b
  | VInt a, VFloat b => PrimFloat.eqb (float_of_Z a) b
  | VFloat a, VInt b => PrimFloat.eqb a (float_of_Z b)
  | _, _ => false
  end.

Definition is_NaN (x : jsval) : bool :=
  match x with
  | VFloat f => PrimFloat.is_nan f
  | _ => false
  end.

(** [x === y]. Two objects are equal when they are the same object; the
    objects met here come out of [JSON.parse] or out of a caller and are
    never compared with themselves, so an object equals nothing. *)
Definition strictEquals (x y : jsval) : bool :=
  match x, y with
  | VUndefined, VUndefined => true
  | VNull, VNull => true
  | VBool a, VBool b => Bool.eqb a b
  | VStr a, VStr b => String.eqb a b
  | _, _ => Number_equal x y
  end.

(** The comparison of [Map] keys: [===], but NaN is the same as NaN. *)
Definition SameValueZero (x y : jsval) : bool :=
  strictEquals x y || (is_NaN x && is_NaN y).

(** [v.name], for a name that no prototype and no array or string defines
    (the names that this program reads). *)
Definition member (v : jsval) (name : string) : completion jsval :=
  match v with
  | VUndefined | VNull => Throw TypeError
  | VObj properties =>
      Normal (match find (fun p => String.eqb (fst p) name) properties with
              | Some p => snd p
              | None => VUndefined
              end)
  | _ => Normal VUndefined
  end.

(** ** Map *)

Definition JSMap (V : Type) : Type := list (jsval * V).

(** A [Map] stores the key [-0] as [+0]. *)
Definition Map_key (key : jsval) : jsval :=
  match key with
  | VFloat f => if PrimFloat.is_zero f && PrimFloat.get_sign f then VFloat 0 else key
  | _ => key
  end.

Fixpoint Map_get {V : Type} (m : JSMap V) (key : jsval) : option V :=
  match m with
  | [] => None
  | (k, v) :: m' => if SameValueZero k key then Some v else Map_get m' key
  end.

Definition Map_has {V : Type} (m : JSMap V) (key : jsval) : bool :=
  match Map_get m key with
  | Some _ => true
  | None => false
  end.

(** [m.set(key, value)]: the value of a key that is there is replaced where
    it stands; a new key goes to the end. *)
Fixpoint Map_set {V : Type} (m : JSMap V) (key : jsval) (value : V) : JSMap V :=
  match m with
  | [] => [(Map_key key, value)]
  | (k, v) :: m' =>
      if SameValueZero k key then (k, value) :: m'
      else (k, v) :: Map_set m' key value
  end.

Definition Map_keys {V : Type} (m : JSMap V) : list jsval := map fst m.
Definition Map_values {V : Type} (m : JSMap V) : list V := map snd m.
Definition Map_size {V : Type} (m : JSMap V) : nat := length m.


(** [entry[i]], for [i] 0 or 1. *)
Definition entry_at (entry : jsval) (i : nat) : jsval :=
  match entry with
  | VArr elements => nth i elements VUndefined
  | VObj properties =>
      match find (fun p => String.eqb (fst p) (if Nat.eqb i 0 then "0" else "1"))
                 properties with
      | Some p => snd p
      | None => VUndefined
      end
  | _ => VUndefined
  end.

Definition is_Object (v : jsval) : bool :=
  match v with
  | VArr _ | VObj _ | VDate _ => true
  | _ => false
  end.

(** [new Map(iterable)]: empty for [undefined] and [null]; otherwise every
    value that [iterable] yields must be an object, whose members 0 and 1
    are set as key and value. An array yields its elements, a string its
    characters (which are no objects); nothing else is iterable. *)
Definition Map_new (iterable : jsval) : completion (JSMap jsval) :=
  match iterable with
  | VUndefined | VNull => Normal []
  | VArr elements =>
      fold_left
        (fun acc entry =>
           match acc with
           | Normal m =>
               if is_Object entry
               then Normal (Map_set m (entry_at entry 0) (entry_at entry 1))
               else Throw TypeError
           | Throw e => Throw e
           end)
        elements (Normal [])
  | VStr EmptyString => Normal []
  | _ => Throw TypeError
  end.

(** ** stateManagementService.ts *)

Record SprintState : Type := {
  sprintName : jsval;
  workItems : JSMap jsval;
  lastSyncTime : Date;
  classifications : JSMap jsval
}.

(** The private field [sprints] is the state of the service. *)
Definition Store : Type := JSMap SprintState.

(** A method: from the store before the call to how the call ends and the
    store after it. *)
Definition M (A : Type) : Type := Store -> completion A * Store.

Definition ret {A : Type} (a : A) : M A := fun sprints => (Normal a, sprints).

Definition bind {A B : Type} (m : M A) (f : A -> M B) : M B :=
  fun sprints =>
    match m sprints with
    | (Normal a, sprints') => f a sprints'
    | (Throw e, sprints') => (Throw e, sprints')
    end.

Definition throw {A : Type} (e : Error) : M A := fun sprints => (Throw e, sprints).

(** The completion of an evaluation that does not touch the store. *)
Definition lift {A : Type} (c : completion A) : M A := fun sprints => (c, sprints).

(** [try { m } catch (error) { handler error }]. *)
Definition tryCatch {A : Type} (m : M A) (handler : Error -> M A) : M A :=
  fun sprints =>
    match m sprints with
    | (Throw e, sprints') => handler e sprints'
    | r => r
    end.

Definition this_sprints : M Store := fun sprints => (Normal sprints, sprints).

Definition set_this_sprints (sprints : Store) : M unit := fun _ => (Normal tt, sprints).

Declare Scope method_scope.
Delimit Scope method_scope with method.
Notation "x <- m ;; k" := (bind m (fun x => k))
  (at level 61, m at next level, right associativity) : method_scope.
Notation "m ;; k" := (bind m (fun _ => k))
  (at level 61, right associativity) : method_scope.
#[local] Open Scope method_scope.

(** [array.forEach(callback)]; it ends as soon as a call throws. *)
Fixpoint forEach {A : Type} (array : list A) (callback : A -> M unit) : M unit :=
  match array with
  | [] => ret tt
  | x :: array' => callback x ;; forEach array' callback
  end.

(** The object that a [WorkItem] is: its members in the order of the
    interface, the optional ones when they are there (a member that is
    [undefined] reads like one that is not there, and is left out). *)
Definition optional (name : string) (v : option jsval) : list (string * jsval) :=
  match v with
  | Some x => [(name, x)]
  | None => []
  end.

Definition WorkItem_value (wi : WorkItem) : jsval :=
  VObj ([("id", VInt (id wi));
         ("title", VStr (title wi));
         ("type", VStr (WorkItemType_string (type wi)));
         ("state", VStr (state wi))]
        ++ optional "assignedTo" (option_map VStr (assignedTo wi))
        ++ optional "description" (option_map VStr (description wi))
        ++ optional "tags" (option_map (fun l => VArr (map VStr l)) (tags wi))
        ++ optional "priority" (option_map (fun p => VInt (Priority_numeral p)) (priority wi))
        ++ optional "sprint" (option_map VStr (sprint wi))
        ++ optional "url" (option_map VStr (url wi))).

(** The object that a [ClassificationResult] is. *)
Definition ClassificationResult_value (c : ClassificationResult) : jsval :=
  VObj [("workItemId", VInt (workItemId c));
        ("suggestedTags", VArr (map VStr (suggestedTags c)));
        ("suggestedPriority", VInt (Priority_numeral (suggestedPriority c)));
        ("confidence", VFloat (confidence c));
        ("reasoning", VStr (reasoning c))].

(** [getOrCreateSprintState]; [now] is the time that [new Date()] reads if
    the state is created. The state returned is the one in the map: [!]
    asserts that [get] finds it, as it does, the key being there by then. *)
Definition getOrCreateSprintState (now : Z) (name : string) : M SprintState :=
  sprints <- this_sprints ;;
  (if negb (Map_has sprints (VStr name))
   then
     let state := {| sprintName := VStr name;
                     workItems := [];
                     lastSyncTime := Date_at now;
                     classifications := [] |} in
     set_this_sprints (Map_set sprints (VStr name) state)
   else ret tt) ;;
  sprints <- this_sprints ;;
  match Map_get sprints (VStr name) with
  | Some state => ret state
  | None => throw TypeError
  end.

(** An assignment through the reference [state] that
    [getOrCreateSprintState name] returned: the state in the map changes. *)
Definition assign_state (name : string) (state : SprintState) : M unit :=
  sprints <- this_sprints ;;
  set_this_sprints (Map_set sprints (VStr name) state).

(** [updateWorkItems]; [created] and [now] are the times that the two
    [new Date()] read. *)
Definition updateWorkItems (created now : Z) (name : string) (items : list WorkItem)
  : M unit :=
  state <- getOrCreateSprintState created name ;;
  let state :=
    {| sprintName := sprintName state;
       workItems :=
         fold_left (fun m wi => Map_set m (VInt (id wi)) (WorkItem_value wi))
                   items (workItems state);
       lastSyncTime := lastSyncTime state;
       classifications := classifications state |} in
  let state :=
    {| sprintName := sprintName state;
       workItems := workItems state;
       lastSyncTime := Date_at now;
       classifications := classifications state |} in
  assign_state name state.

(** [storeClassifications]. *)
Definition storeClassifications (created : Z) (name : string)
  (results : list ClassificationResult) : M unit :=
  state <- getOrCreateSprintState created name ;;
  let state :=
    {| sprintName := sprintName state;
       workItems := workItems state;
       lastSyncTime := lastSyncTime state;
       classifications :=
         fold_left
           (fun m classification =>
              Map_set m (VInt (workItemId classification))
                      (ClassificationResult_value classification))
           results (classifications state) |} in
  assign_state name state.

Definition getWorkItems (name : string) : M (list jsval) :=
  sprints <- this_sprints ;;
  match Map_get sprints (VStr name) with
  | None => ret []
  | Some state => ret (Map_values (workItems state))
  end.

Definition getClassifications (name : string) : M (list jsval) :=
  sprints <- this_sprints ;;
  match Map_get sprints (VStr name) with
  | None => ret []
  | Some state => ret (Map_values (classifications state))
  end.

Definition getAllSprints : M (list jsval) :=
  sprints <- this_sprints ;;
  ret (Map_keys sprints).

Record PriorityBreakdown : Type := {
  critical : nat;
  high : nat;
  medium : nat;
  low : nat
}.

Record SprintStats : Type := {
  stats_sprintName : string;
  totalWorkItems : nat;
  totalClassifications : nat;
  stats_lastSyncTime : Date;
  priorityBreakdown : PriorityBreakdown
}.

(** [classifications.filter(c => c.suggestedPriority === numeral).length]. *)
Fixpoint count_priority (numeral : Z) (classifications : list jsval) : completion nat :=
  match classifications with
  | [] => Normal 0%nat
  | c :: rest =>
      match member c "suggestedPriority" with
      | Throw e => Throw e
      | Normal p =>
          match count_priority numeral rest with
          | Throw e => Throw e
          | Normal n => Normal (if strictEquals p (VInt numeral) then S n else n)
          end
      end
  end.

(** [getSprintStats]; [None] is [null]. *)
Definition getSprintStats (name : string) : M (option SprintStats) :=
  sprints <- this_sprints ;;
  match Map_get sprints (VStr name) with
  | None => ret None
  | Some state =>
      let results := Map_values (classifications state) in
      critical <- lift (count_priority 1 results) ;;
      high <- lift (count_priority 2 results) ;;
      medium <- lift (count_priority 3 results) ;;
      low <- lift (count_priority 4 results) ;;
      ret (Some {| stats_sprintName := name;
                   totalWorkItems := Map_size (workItems state);
                   totalClassifications := Map_size (classifications state);
                   stats_lastSyncTime := lastSyncTime state;
                   priorityBreakdown :=
                     {| critical := critical; high := high;
                        medium := medium; low := low |} |})
  end.

(** ** Export and import *)

Section Persistence.

(** The text of a snapshot (a string in the source), with [JSON.stringify]
    and [JSON.parse] ([None]: the text is no JSON, a [SyntaxError]), and
    [new Date(value)]. *)
Variable text : Type.
Variable JSON_stringify : jsval -> text.
Variable JSON_parse : text -> option jsval.
Variable Date_new : jsval -> completion Date.



(** [data.sprints.forEach(callback)]: only an array has [forEach]. *)
Definition sprints_forEach (sprints : jsval) (callback : jsval -> M unit) : M unit :=
  match sprints with
  | VArr elements => forEach elements callback
  | _ => throw TypeError
  end.

(** The arrow function that [importState] passes to [forEach]. *)
Definition import_sprint (sprint : jsval) : M unit :=
  name <- lift (member sprint "name") ;;
  items <- lift (member sprint "workItems") ;;
  workItems <- lift (Map_new items) ;;
  results <- lift (member sprint "classifications") ;;
  classifications <- lift (Map_new results) ;;
  time <- lift (member sprint "lastSyncTime") ;;
  lastSyncTime <- lift (Date_new time) ;;
  let state := {| sprintName := name;
                  workItems := workItems;
                  classifications := classifications;
                  lastSyncTime := lastSyncTime |} in
  sprints <- this_sprints ;;
  set_this_sprints (Map_set sprints name state).

Definition importState (json : text) : M unit :=
  tryCatch
    (data <- lift (match JSON_parse json with
                   | Some value => Normal value
                   | None => Throw SyntaxError
                   end) ;;
     set_this_sprints [] ;;
     sprints <- lift (member data "sprints") ;;
     sprints_forEach sprints import_sprint)
    (fun error => throw error).

End Persistence.

(** ** Arrays of strings *)

(** [s.split(separator)], for a separator of one character: the parts of
    [s] between the separators, at least one part. *)
Fixpoint String_split (s : string) (separator : ascii) : list string :=
  match s with
  | EmptyString => [EmptyString]
  | String c s' =>
      let parts := String_split s' separator in
      if Ascii.eqb c separator then EmptyString :: parts
      else String c (hd EmptyString parts) :: tl parts
  end.

(** [array.join(separator)], for an array of strings. *)
Fixpoint Array_join (array : list string) (separator : string) : string :=
  match array with
  | [] => EmptyString
  | x :: array' =>
      match array' with
      | [] => x
      | _ :: _ => x ++ separator ++ Array_join array' separator
      end
  end.

(** ** index.ts *)

(** The sprint name of a command: [parts.slice(1).join(' ')] for the
    [parts = text.split(' ')] of the text if there is more than one part,
    and [otherwise] if not. *)
Definition command_sprintName (text otherwise : string) : string :=
  let parts := String_split text " " in
  if (1 <? length parts)%nat then Array_join (tl parts) " " else otherwise.

(** The sprint that the [sync] command asks Azure DevOps for:
    [sprintName !== 'Current Sprint' ? sprintName : undefined]. *)
Definition sync_sprint (name : string) : option string :=
  if String.eqb name "Current Sprint" then None else Some name.

(** What the [sync] command does with the work items that it fetched: it
    records them, classifies them, records the results and reads the
    statistics of the sprint. [created], [now] and [created'] are the times
    that the [new Date()] of the store read. *)
Definition sync (toLowerCase : string -> string) (created now created' : Z)
  (name : string) (items : list WorkItem) : M (option SprintStats) :=
  updateWorkItems created now name items ;;
  let results := classifyWorkItems toLowerCase items in
  storeClassifications created' name results ;;
  getSprintStats name.

(** ** azureDevOpsService.ts *)

(** The [tags] that [getWorkItems] gives a work item, from the field
    [System.Tags] ([None]: the field is [undefined]):
    [field?.split(';').map(t => t.trim()).filter(t => t) || []]. *)
Definition fields_tags (System_Tags : option string) : list string :=
  match System_Tags with
  | Some s =>
      filter (fun t => negb (String.eqb t ""))
             (map trim (String_split s ";"))
  | None => []
  end.

(** An operation of a JSON patch. *)
Record Operation : Type := {
  op : string;
  path : string;
  value : jsval
}.

(** The array [updates] that [updateWorkItem] builds; [None] is an argument
    that is [undefined]. A number is truthy when it is not zero. *)
Definition updateWorkItem_updates (tags : option (list string)) (priority : option Z)
  : list Operation :=
  let updates := [] in
  let updates :=
    match tags with
    | Some tags =>
        if (0 <? length tags)%nat
        then push updates {| op := "add";
                             path := "/fields/System.Tags";
                             value := VStr (Array_join tags "; ") |}
        else updates
    | None => updates
    end in
  let updates :=
    match priority with
    | Some priority =>
        if negb (Z.eqb priority 0)
        then push updates {| op := "add";
                             path := "/fields/Microsoft.VSTS.Common.Priority";
                             value := VInt priority |}
        else updates
    | None => updates
    end in
  updates.

(** The body of the PATCH request that [updateWorkItem] sends; [None]: it
    sends no request. *)
Definition updateWorkItem_patch (tags : option (list string)) (priority : option Z)
  : option (list Operation) :=
  let updates := updateWorkItem_updates tags priority in
  if (0 <? length updates)%nat then Some updates else None.

(** ** copilotStudioNotificationService.ts *)

(** [classifications.filter(c => c.suggestedPriority === numeral).length],
    on results of the type [ClassificationResult]. *)
Definition count_suggestedPriority (numeral : Z)
  (classifications : list ClassificationResult) : nat :=
  length (filter (fun c => Z.eqb (Priority_numeral (suggestedPriority c)) numeral)
                 classifications).

(** An element of [data.workItems]; the classification is [None] when
    [classifications[idx]] is [undefined]. *)
Record BatchItem : Type := {
  batch_id : Z;
  batch_title : string;
  batch_classification : option ClassificationResult
}.

(** The member [data] of the payload of [notifyBatchProcessing]. *)
Record BatchData : Type := {
  totalProcessed : nat;
  summary : PriorityBreakdown;
  batch_workItems : list BatchItem
}.

(** [workItems.map((wi, idx) => ...)], from the index [idx] on. *)
Fixpoint batch_items (idx : nat) (workItems : list WorkItem)
  (classifications : list ClassificationResult) : list BatchItem :=
  match workItems with
  | [] => []
  | wi :: workItems' =>
      {| batch_id := id wi;
         batch_title := title wi;
         batch_classification := nth_error classifications idx |}
      :: batch_items (S idx) workItems' classifications
  end.

(** A string that is there and not empty. *)
Definition truthy (s : option string) : bool :=
  match s with
  | Some (String _ _) => true
  | _ => false
  end.

(** The [data] of the payload that [notifyBatchProcessing] posts; [None]:
    the endpoint or the key is missing, and nothing is posted. *)
Definition notifyBatchProcessing (endpoint apiKey : option string)
  (workItems : list WorkItem) (classifications : list ClassificationResult)
  : option BatchData :=
  if negb (truthy endpoint) || negb (truthy apiKey) then None
  else
    Some {| totalProcessed := length workItems;
            summary :=
              {| critical := count_suggestedPriority 1 classifications;
                 high := count_suggestedPriority 2 classifications;
                 medium := count_suggestedPriority 3 classifications;
                 low := count_suggestedPriority 4 classifications |};
            batch_workItems := batch_items 0 workItems classifications |}.

(** ** teamsNotificationService.ts *)

Definition getPriorityColor (priority : Z) : string :=
  match priority with
  | 1%Z => "FF0000"
  | 2%Z => "FFA500"
  | 3%Z => "0078D4"
  | 4%Z => "28A745"
  | _ => "808080"
  end.

Definition getPriorityName (priority : Z) : string :=
  match priority with
  | 1%Z => "Critical"
  | 2%Z => "High"
  | 3%Z => "Medium"
  | 4%Z => "Low"
  | _ => "Unknown"
  end.

(** Of the card that [sendClassificationUpdate] builds when there is a
    webhook URL: the theme colour and the facts "Suggested Priority",
    "Suggested Tags" and "Reasoning". The texts that format a number (the
    titles with the id, the fact "Confidence") and the link are left out. *)
Record ClassificationCard : Type := {
  themeColor : string;
  fact_Suggested_Priority : string;
  fact_Suggested_Tags : string;
  fact_Reasoning : string
}.

Definition sendClassificationUpdate_card (classification : ClassificationResult)
  : ClassificationCard :=
  {| themeColor := getPriorityColor (Priority_numeral (suggestedPriority classification));
     fact_Suggested_Priority :=
       getPriorityName (Priority_numeral (suggestedPriority classification));
     fact_Suggested_Tags :=
       match Array_join (suggestedTags classification) ", " with
       | EmptyString => "None"
       | s => s
       end;
     fact_Reasoning := reasoning classification |}.

(** Of the card that [sendBatchSummary] builds when there is a webhook
    URL: the two counts and the total that its facts show, and the theme
    colour. *)
Record BatchSummary : Type := {
  criticalCount : nat;
  highCount : nat;
  totalCount : nat;
  summary_themeColor : string
}.

Definition sendBatchSummary_card (workItems : list WorkItem)
  (classifications : list ClassificationResult) : BatchSummary :=
  let criticalCount := count_suggestedPriority 1 classifications in
  let highCount := count_suggestedPriority 2 classifications in
  {| criticalCount := criticalCount;
     highCount := highCount;
     totalCount := length workItems;
     summary_themeColor := if (0 <? criticalCount)%nat then "0078D4" else "28A745" |}.


(* ================================================================== *)
(** * Part II: the vocabulary of the statements *)
(* ================================================================== *)

(** ** The classifier *)

(** The three keyword tests of the priority tiers, on the haystack. *)
Definition criticalKeywords (text : string) (type : WorkItemType) : bool :=
  includes text "critical"
  || includes text "production down"
  || includes text "security"
  || includes text "data loss"
  || WorkItemType_eqb type Bug && includes text "blocker".

Definition highKeywords (text : string) : bool :=
  includes text "urgent"
  || includes text "important"
  || includes text "customer impact"
  || includes text "high priority".

Definition lowKeywords (text : string) : bool :=
  includes text "nice to have"
  || includes text "low priority"
  || includes text "enhancement"
  || includes text "cosmetic".

(** The locals after the priority tier. *)
Definition tierLocals (text : string) (type : WorkItemType) : Locals :=
  let l := {| l_suggestedTags := []; l_suggestedPriority := Medium; l_reasoning := "" |} in
  if criticalKeywords text type
  then setTier Critical "Critical" "Critical priority due to severity keywords. " l
  else if highKeywords text
  then setTier High "HighPriority" "High priority due to urgency indicators. " l
  else if lowKeywords text
  then setPriority Low "Low priority - non-critical enhancement. " l
  else l.

(** The tags that the rules after the priority tier push. *)
Definition later_tags : list string :=
  ["UI"; "Backend"; "Database"; "Performance"; "Security"; "Testing";
   "Documentation"; "Bug"; "Feature"; "Epic"; "NeedsReview"].

(** The confidence of a result with [n] tags. *)
Definition confidence_of (n : nat) : float :=
  Math_min 0.95 (0.6 + (Number_of_nat n * 0.1))%float.

(** The binary64 nearest to [min(0.95, 0.6 + 0.1 n)]. *)
Definition confidence_literal (n : nat) : float :=
  match n with
  | 0%nat => 0.6
  | 1%nat => 0.7
  | 2%nat => 0.8
  | 3%nat => 0.9
  | _ => 0.95
  end%float.

(** [l] comes from [l0] by at most [n] pushes of later tags, with the
    priority kept and the reasoning extended. *)
Definition extends (n : nat) (l0 l : Locals) : Prop :=
  l_suggestedPriority l = l_suggestedPriority l0 /\
  exists rest fragments,
    l_suggestedTags l = l_suggestedTags l0 ++ rest /\
    l_reasoning l = (l_reasoning l0 ++ fragments)%string /\
    Forall (fun t => In t later_tags) rest /\
    (length rest <= n)%nat.

(** The last character of [p] is no white space. *)
Fixpoint ends_in_text (p : string) : bool :=
  match p with
  | EmptyString => false
  | String c EmptyString => negb (isWhiteSpace c)
  | String _ p' => ends_in_text p'
  end.

(** The work items of the examples. *)
Definition wi_production_down : WorkItem :=
  {| id := 7; title := "Fix production down issue"; type := Bug; state := "New";
     assignedTo := None; description := Some ""; tags := None; priority := None;
     sprint := None; url := None |}.

Definition wi_cosmetic : WorkItem :=
  {| id := 8; title := "Cosmetic polish"; type := Task; state := "Active";
     assignedTo := None; description := None; tags := None; priority := None;
     sprint := None; url := None |}.

Definition wi_cosmetic_other_id : WorkItem :=
  {| id := 9; title := "Cosmetic polish"; type := Task; state := "Active";
     assignedTo := Some "Ada"; description := None; tags := Some ["later"];
     priority := Some High; sprint := Some "Sprint 24"; url := None |}.

(** Two later versions of work items of the examples: the item 9 and the
    item 8, with other titles. *)
Definition wi_cosmetic_second_pass : WorkItem :=
  {| id := 9; title := "Cosmetic polish, second pass"; type := Task; state := "Resolved";
     assignedTo := None; description := None; tags := None; priority := None;
     sprint := None; url := None |}.

Definition wi_cosmetic_header : WorkItem :=
  {| id := 8; title := "Cosmetic polish of the header"; type := Task; state := "Active";
     assignedTo := None; description := None; tags := None; priority := None;
     sprint := None; url := None |}.

(** ** Maps *)

(** A key that is not given as a binary64. *)
Definition no_float (key : jsval) : Prop :=
  match key with
  | VFloat _ => False
  | _ => True
  end.

(** What the [forEach] of [updateWorkItems] and of [storeClassifications]
    makes of a map: each item is set under its integer key. *)
Definition record_all {X : Type} (key : X -> Z) (val : X -> jsval)
  (m : JSMap jsval) (xs : list X) : JSMap jsval :=
  fold_left (fun m x => Map_set m (VInt (key x)) (val x)) xs m.

(** The last item of [xs] with the key [i]. *)
Definition last_with {X : Type} (key : X -> Z) (i : Z) (xs : list X) : option X :=
  find (fun x => Z.eqb (key x) i) (rev xs).


(** ** The store *)

(** The state that [getOrCreateSprintState] creates. *)
Definition fresh_state (created : Z) (name : string) : SprintState :=
  {| sprintName := VStr name;
     workItems := [];
     lastSyncTime := Date_at created;
     classifications := [] |}.

(** The state of a sprint as a mutating method finds it, created if it was
    not there, and the store once it is there. *)
Definition state_before (created : Z) (name : string) (sprints : Store) : SprintState :=
  match Map_get sprints (VStr name) with
  | Some state => state
  | None => fresh_state created name
  end.

Definition store_with (created : Z) (name : string) (sprints : Store) : Store :=
  match Map_get sprints (VStr name) with
  | Some _ => sprints
  | None => Map_set sprints (VStr name) (fresh_state created name)
  end.

(** The stores that the agent builds. [index.ts] owns the one store of the
    program: it creates states, records the work items of a sync, and
    records the results that the classifier gives for work items; it
    imports nothing. *)
Inductive reachable (toLowerCase : string -> string) : Store -> Prop :=
| reachable_new : reachable toLowerCase []
| reachable_getOrCreate (now : Z) (name : string) (sprints : Store) :
    reachable toLowerCase sprints ->
    reachable toLowerCase (snd (getOrCreateSprintState now name sprints))
| reachable_updateWorkItems (created now : Z) (name : string)
    (items : list WorkItem) (sprints : Store) :
    reachable toLowerCase sprints ->
    reachable toLowerCase (snd (updateWorkItems created now name items sprints))
| reachable_storeClassifications (created : Z) (name : string)
    (items : list WorkItem) (sprints : Store) :
    reachable toLowerCase sprints ->
    reachable toLowerCase
      (snd (storeClassifications created name
              (classifyWorkItems toLowerCase items) sprints)).

(** ** What JSON keeps *)

(** No string occurs twice. *)
Fixpoint distinct (names : list string) : bool :=
  match names with
  | [] => true
  | x :: rest => negb (existsb (String.eqb x) rest) && distinct rest
  end.

(** The JSON value that [JSON.stringify] writes for [v], when it writes [v]
    without loss: nothing undefined, every number finite and not [-0], every
    date valid (it is written through [toJSON], as its ISO string), the names
    of an object distinct. [toISOString] is [Date.prototype.toISOString], of
    a time value. *)
Fixpoint JSON_value (toISOString : Z -> string) (v : jsval) {struct v} : option jsval :=
  match v with
  | VUndefined => None
  | VNull | VBool _ | VInt _ | VStr _ => Some v
  | VFloat f =>
      if PrimFloat.is_finite f && negb (PrimFloat.is_zero f && PrimFloat.get_sign f)
      then Some v else None
  | VDate (Date_at t) => Some (VStr (toISOString t))
  | VDate Invalid_Date => None
  | VArr elements =>
      option_map VArr
        ((fix all (l : list jsval) : option (list jsval) :=
            match l with
            | [] => Some []
            | x :: l' =>
                match JSON_value toISOString x, all l' with
                | Some y, Some ys => Some (y :: ys)
                | _, _ => None
                end
            end) elements)
  | VObj properties =>
      if distinct (map fst properties)
      then
        option_map VObj
          ((fix all (l : list (string * jsval)) : option (list (string * jsval)) :=
              match l with
              | [] => Some []
              | (k, x) :: l' =>
                  match JSON_value toISOString x, all l' with
                  | Some y, Some ys => Some ((k, y) :: ys)
                  | _, _ => None
                  end
              end) properties)
      else None
  end.

(** [JSON_value] on the elements of an array and on the members of an
    object. *)
Fixpoint JSON_values (toISOString : Z -> string) (l : list jsval)
  : option (list jsval) :=
  match l with
  | [] => Some []
  | x :: l' =>
      match JSON_value toISOString x, JSON_values toISOString l' with
      | Some y, Some ys => Some (y :: ys)
      | _, _ => None
      end
  end.

Fixpoint JSON_members (toISOString : Z -> string) (l : list (string * jsval))
  : option (list (string * jsval)) :=
  match l with
  | [] => Some []
  | (k, x) :: l' =>
      match JSON_value toISOString x, JSON_members toISOString l' with
      | Some y, Some ys => Some ((k, y) :: ys)
      | _, _ => None
      end
  end.

(** A value that [JSON.stringify] writes as it is. *)
Definition plain (toISOString : Z -> string) (v : jsval) : Prop :=
  JSON_value toISOString v = Some v.

(** A state that a snapshot keeps: ids as keys, each once, values that JSON
    writes as they are, a valid date, and the name under which it is kept. *)
Definition state_ok (toISOString : Z -> string) (name : jsval) (state : SprintState)
  : Prop :=
  sprintName state = name /\
  (exists ids, Map_keys (workItems state) = map VInt ids /\ NoDup ids) /\
  Forall (plain toISOString) (Map_values (workItems state)) /\
  (exists ids, Map_keys (classifications state) = map VInt ids /\ NoDup ids) /\
  Forall (plain toISOString) (Map_values (classifications state)) /\
  exists t, lastSyncTime state = Date_at t.

Definition store_ok (toISOString : Z -> string) (sprints : Store) : Prop :=
  (exists names, Map_keys sprints = map VStr names /\ NoDup names) /\
  Forall (fun e => state_ok toISOString (fst e) (snd e)) sprints.

(** ** What a snapshot keeps *)















(** ** A platform for the examples

    Lowercasing of ASCII. The text of a value is the JSON value that is
    read back from it, and there is one text that is no JSON; a time is
    written in decimal. *)
(** [toLowerCase] on the ASCII letters: what it does to a string of ASCII
    characters. *)
Definition toLowerCase_ascii_char (c : ascii) : ascii :=
  let n := nat_of_ascii c in
  if ((65 <=? n) && (n <=? 90))%nat then ascii_of_nat (n + 32) else c.

Fixpoint toLowerCase_ascii (s : string) : string :=
  match s with
  | EmptyString => EmptyString
  | String c s' => String (toLowerCase_ascii_char c) (toLowerCase_ascii s')
  end.


Definition example_Date_new (v : jsval) : completion Date :=
  match v with
  | VStr s =>
      match DecimalString.NilEmpty.int_of_string s with
      | Some d => Normal (Date_at (Z.of_int d))
      | None => Normal Invalid_Date
      end
  | VNull => Normal (Date_at 0)
  | VInt z => Normal (Date_at z)
  | _ => Normal Invalid_Date
  end.

Definition example_parse (json : option jsval) : option jsval := json.

(** The store after a sync of two work items into "Sprint 24". *)
Definition example_store : Store :=
  snd (storeClassifications 1000 "Sprint 24"
         (classifyWorkItems toLowerCase_ascii [wi_production_down; wi_cosmetic])
         (snd (updateWorkItems 1000 2000 "Sprint 24"
                 [wi_production_down; wi_cosmetic] []))).







(** ** The rules of the classifier, one by one *)

(** The tests of the seven technical areas, on the haystack. *)
Definition uiKeywords (text : string) : bool :=
  includes text "ui" || includes text "frontend" || includes text "interface".

Definition backendKeywords (text : string) : bool :=
  includes text "backend" || includes text "api" || includes text "server".

Definition databaseKeywords (text : string) : bool :=
  includes text "database" || includes text "sql" || includes text "data".

Definition performanceKeywords (text : string) : bool :=
  includes text "performance" || includes text "slow" || includes text "optimization".

Definition securityKeywords (text : string) : bool :=
  includes text "security" || includes text "authentication"
  || includes text "authorization".

Definition testingKeywords (text : string) : bool :=
  includes text "test" || includes text "testing" || includes text "qa".

Definition documentationKeywords (text : string) : bool :=
  includes text "documentation" || includes text "docs" || includes text "readme".

(** The outcome of the eleven tests of [classifyWorkItem] that read the
    text or the state. *)
Record Tests : Type := {
  t_critical : bool;
  t_high : bool;
  t_low : bool;
  t_ui : bool;
  t_backend : bool;
  t_database : bool;
  t_performance : bool;
  t_security : bool;
  t_testing : bool;
  t_documentation : bool;
  t_new : bool
}.

Definition tests_of (toLowerCase : string -> string) (w : WorkItem) : Tests :=
  let text := haystack toLowerCase w in
  {| t_critical := criticalKeywords text (type w);
     t_high := highKeywords text;
     t_low := lowKeywords text;
     t_ui := uiKeywords text;
     t_backend := backendKeywords text;
     t_database := databaseKeywords text;
     t_performance := performanceKeywords text;
     t_security := securityKeywords text;
     t_testing := testingKeywords text;
     t_documentation := documentationKeywords text;
     t_new := String.eqb (toLowerCase (state w)) "new" |}.

(** The locals at the end of [classifyWorkItem], given the outcome of its
    tests and the type of the work item. *)
Definition rulesLocals (t : Tests) (type : WorkItemType) : Locals :=
  let l := {| l_suggestedTags := []; l_suggestedPriority := Medium; l_reasoning := "" |} in
  let l :=
    if t_critical t
    then setTier Critical "Critical" "Critical priority due to severity keywords. " l
    else if t_high t
    then setTier High "HighPriority" "High priority due to urgency indicators. " l
    else if t_low t
    then setPriority Low "Low priority - non-critical enhancement. " l
    else l in
  let l := when (t_ui t) (addTag "UI" "UI component identified. ") l in
  let l := when (t_backend t) (addTag "Backend" "Backend component identified. ") l in
  let l := when (t_database t) (addTag "Database" "Database component identified. ") l in
  let l := when (t_performance t)
                (addTag "Performance" "Performance concern identified. ") l in
  let l := when (t_security t) (addTag "Security" "Security aspect identified. ") l in
  let l := when (t_testing t) (addTag "Testing" "Testing related. ") l in
  let l := when (t_documentation t) (addTag "Documentation" "Documentation work. ") l in
  let l :=
    if WorkItemType_eqb type Bug then pushTag "Bug" l
    else if WorkItemType_eqb type Feature then pushTag "Feature" l
    else if WorkItemType_eqb type Epic then pushTag "Epic" l
    else l in
  when (t_new t) (addTag "NeedsReview" "New work item needs review. ") l.

(** The reasoning that is returned for the locals. *)
Definition finalReasoning (l : Locals) : string :=
  match trim (l_reasoning l) with
  | EmptyString => "Standard classification applied."
  | r => r
  end.

(** Every tag that a rule can push, in the order of the rules. *)
Definition rule_tags : list string := "Critical" :: "HighPriority" :: later_tags.

(** The tags of the work item type. *)
Definition type_tags : list string := ["Bug"; "Feature"; "Epic"].

(** [l] is [m] with some elements left out. *)
Fixpoint subsequence (l m : list string) : bool :=
  match l, m with
  | [], _ => true
  | _ :: _, [] => false
  | x :: l', y :: m' =>
      if String.eqb x y then subsequence l' m' else subsequence l m'
  end.

Definition has_tag (tag : string) (tags : list string) : bool :=
  existsb (String.eqb tag) tags.

(** All outcomes of the tests, and all types. *)
Definition all_bool : list bool := [true; false].

Definition all_Tests : list Tests :=
  flat_map (fun a => flat_map (fun b => flat_map (fun c => flat_map (fun d =>
  flat_map (fun e => flat_map (fun f => flat_map (fun g => flat_map (fun h =>
  flat_map (fun i => flat_map (fun j => map (fun k =>
    {| t_critical := a; t_high := b; t_low := c; t_ui := d; t_backend := e;
       t_database := f; t_performance := g; t_security := h; t_testing := i;
       t_documentation := j; t_new := k |})
  all_bool) all_bool) all_bool) all_bool) all_bool) all_bool) all_bool) all_bool)
  all_bool) all_bool) all_bool.

Definition all_WorkItemType : list WorkItemType := [Bug; Feature; Task; UserStory; Epic].

(** A work item with its title, description and state lowercased. *)
Definition lowercased (toLowerCase : string -> string) (w : WorkItem) : WorkItem :=
  {| id := id w;
     title := toLowerCase (title w);
     type := type w;
     state := toLowerCase (state w);
     assignedTo := assignedTo w;
     description := option_map toLowerCase (description w);
     tags := tags w;
     priority := priority w;
     sprint := sprint w;
     url := url w |}.

(** A work item for the examples: data loss in the title. *)
Definition wi_data_loss : WorkItem :=
  {| id := 11; title := "Data loss after restart"; type := Task; state := "Active";
     assignedTo := None; description := None; tags := None; priority := None;
     sprint := None; url := None |}.

Definition wi_security : WorkItem :=
  {| id := 12; title := "Security review"; type := Epic; state := "NEW";
     assignedTo := None; description := Some "Audit the login"; tags := None;
     priority := None; sprint := None; url := None |}.

(** ** More about the store *)

(** A property of every sprint state of the store. *)
Definition store_all (P : SprintState -> Prop) (sprints : Store) : Prop :=
  Forall (fun e => P (snd e)) sprints.

(** The classifications of the state are objects of the type
    [ClassificationResult]. *)
Definition typed_results (state : SprintState) : Prop :=
  Forall (fun v => exists c, v = ClassificationResult_value c)
         (Map_values (classifications state)).

(** The sum of a priority breakdown. *)
Definition breakdown_total (b : PriorityBreakdown) : nat :=
  (critical b + high b + medium b + low b)%nat.

(** The entry of a work item in the map of a sprint. *)
Definition WorkItem_entry (wi : WorkItem) : jsval * jsval :=
  (VInt (id wi), WorkItem_value wi).

(** A snapshot whose second sprint is [null], and a snapshot with a
    classification that is [null]. *)
Definition snapshot_null_sprint : jsval :=
  VObj [("sprints", VArr [VObj [("name", VStr "A")]; VNull; VObj [("name", VStr "B")]])].

Definition snapshot_null_classification : jsval :=
  VObj [("sprints",
         VArr [VObj [("name", VStr "A");
                     ("classifications", VArr [VArr [VInt 1; VNull]]);
                     ("lastSyncTime", VStr "5")]])].

(** ** Commands and tags *)

(** The character [c] occurs in [s]. *)
Fixpoint contains_char (c : ascii) (s : string) : bool :=
  match s with
  | EmptyString => false
  | String a s' => Ascii.eqb a c || contains_char c s'
  end.

(** A tag that [System.Tags] can hold: not empty, no white space at either
    end, no semicolon. *)
Definition tag_ok (tag : string) : bool :=
  negb (String.eqb tag "") && String.eqb (trim tag) tag && negb (contains_char ";" tag).


(* ================================================================== *)
(** * Part III: properties of the classifier *)
(* ================================================================== *)

Lemma string_append_assoc (a b c : string) :
  ((a ++ b) ++ c = a ++ (b ++ c))%string.
Proof. induction a as [|x a IH]; simpl; [reflexivity | now rewrite IH]. Qed.

Lemma string_append_empty_r (a : string) : (a ++ "")%string = a.
Proof. induction a as [|x a IH]; simpl; [reflexivity | now rewrite IH]. Qed.

Lemma WorkItemType_eqb_eq (a b : WorkItemType) :
  WorkItemType_eqb a b = true <-> a = b.
Proof. destruct a, b; simpl; split; intros H; congruence. Qed.

Lemma extends_refl (l : Locals) : extends 0 l l.
Proof.
  split; [reflexivity|].
  exists [], ""%string. rewrite app_nil_r, string_append_empty_r.
  repeat split; auto.
Qed.

Lemma extends_weaken (n m : nat) (l0 l : Locals) :
  (n <= m)%nat -> extends n l0 l -> extends m l0 l.
Proof.
  intros Hnm (Hp & rest & fr & Ht & Hr & Hall & Hlen).
  split; [assumption|]. exists rest, fr. repeat split; auto. lia.
Qed.

Lemma extends_pushTag (n : nat) (l0 l : Locals) (tag : string) :
  In tag later_tags -> extends n l0 l -> extends (S n) l0 (pushTag tag l).
Proof.
  intros Hin (Hp & rest & fr & Ht & Hr & Hall & Hlen).
  split; [exact Hp|].
  exists (rest ++ [tag]), fr. cbn [pushTag l_suggestedTags l_reasoning]. unfold push.
  rewrite Ht, <- app_assoc. repeat split; auto.
  - apply Forall_app; split; auto.
  - rewrite length_app; simpl; lia.
Qed.

Lemma extends_addTag (n : nat) (l0 l : Locals) (tag fragment : string) :
  In tag later_tags -> extends n l0 l -> extends (S n) l0 (addTag tag fragment l).
Proof.
  intros Hin (Hp & rest & fr & Ht & Hr & Hall & Hlen).
  split; [exact Hp|].
  exists (rest ++ [tag]), (fr ++ fragment)%string.
  cbn [addTag l_suggestedTags l_reasoning]. unfold push.
  rewrite Ht, Hr, <- app_assoc, string_append_assoc. repeat split; auto.
  - apply Forall_app; split; auto.
  - rewrite length_app; simpl; lia.
Qed.

Lemma extends_when (n : nat) (l0 l : Locals) (c : bool) (tag fragment : string) :
  In tag later_tags -> extends n l0 l ->
  extends (S n) l0 (when c (addTag tag fragment) l).
Proof.
  intros Hin H. destruct c; cbn [when].
  - now apply extends_addTag.
  - apply (extends_weaken n); [lia | exact H].
Qed.

Lemma tierLocals_priority (text : string) (t : WorkItemType) :
  l_suggestedPriority (tierLocals text t) =
    if criticalKeywords text t then Critical
    else if highKeywords text then High
    else if lowKeywords text then Low
    else Medium.
Proof.
  unfold tierLocals; cbv zeta.
  destruct (criticalKeywords text t); [reflexivity|].
  destruct (highKeywords text); [reflexivity|].
  destruct (lowKeywords text); reflexivity.
Qed.

Lemma tierLocals_tags (text : string) (t : WorkItemType) :
  l_suggestedTags (tierLocals text t) =
    if criticalKeywords text t then ["Critical"]
    else if highKeywords text then ["HighPriority"]
    else [].
Proof.
  unfold tierLocals; cbv zeta.
  destruct (criticalKeywords text t); [reflexivity|].
  destruct (highKeywords text); [reflexivity|].
  destruct (lowKeywords text); reflexivity.
Qed.

Lemma tierLocals_reasoning_low (text : string) (t : WorkItemType) :
  criticalKeywords text t = false -> highKeywords text = false ->
  lowKeywords text = true ->
  l_reasoning (tierLocals text t) = "Low priority - non-critical enhancement. "%string.
Proof.
  intros Hc Hh Hl. unfold tierLocals; cbv zeta. rewrite Hc, Hh, Hl. reflexivity.
Qed.

Lemma criticalKeywords_true (text : string) (t : WorkItemType) :
  criticalKeywords text t = true <->
  includes text "critical" = true \/ includes text "production down" = true \/
  includes text "security" = true \/ includes text "data loss" = true \/
  (t = Bug /\ includes text "blocker" = true).
Proof.
  unfold criticalKeywords.
  rewrite !orb_true_iff, andb_true_iff, WorkItemType_eqb_eq. tauto.
Qed.

Lemma later_tags_no_tier (tag : string) :
  In tag later_tags -> tag <> "Critical"%string /\ tag <> "HighPriority"%string.
Proof.
  unfold later_tags; simpl; intros H.
  repeat (destruct H as [H | H]; [subst tag; split; discriminate|]).
  contradiction.
Qed.

Section ClassifierProperties.

Variable toLowerCase : string -> string.

(** The result is read off locals that extend those of the priority tier by
    at most nine later tags. *)
Lemma classifyWorkItem_locals (w : WorkItem) :
  exists l,
    extends 9 (tierLocals (haystack toLowerCase w) (type w)) l /\
    suggestedTags (classifyWorkItem toLowerCase w) = l_suggestedTags l /\
    suggestedPriority (classifyWorkItem toLowerCase w) = l_suggestedPriority l /\
    confidence (classifyWorkItem toLowerCase w) = confidence_of (length (l_suggestedTags l)) /\
    reasoning (classifyWorkItem toLowerCase w) =
      match trim (l_reasoning l) with
      | EmptyString => "Standard classification applied."
      | r => r
      end.
Proof.
  unfold classifyWorkItem; cbv zeta.
  cbn [suggestedTags suggestedPriority confidence reasoning].
  match goal with |- context [Number_of_nat (length (l_suggestedTags ?l))] => exists l end.
  split; [| repeat split; reflexivity ].
  apply extends_when; [simpl; tauto|].
  assert (H7 : forall l, extends 7 (tierLocals (haystack toLowerCase w) (type w)) l ->
                         extends 8 (tierLocals (haystack toLowerCase w) (type w))
                           (if WorkItemType_eqb (type w) Bug then pushTag "Bug" l
                            else if WorkItemType_eqb (type w) Feature then pushTag "Feature" l
                            else if WorkItemType_eqb (type w) Epic then pushTag "Epic" l
                            else l)).
  { intros l Hl.
    destruct (WorkItemType_eqb (type w) Bug);
      [apply extends_pushTag; [simpl; tauto | exact Hl]|].
    destruct (WorkItemType_eqb (type w) Feature);
      [apply extends_pushTag; [simpl; tauto | exact Hl]|].
    destruct (WorkItemType_eqb (type w) Epic);
      [apply extends_pushTag; [simpl; tauto | exact Hl]|].
    apply (extends_weaken 7); [lia | exact Hl]. }
  apply H7; clear H7.
  do 7 (apply extends_when; [simpl; tauto|]).
  apply extends_refl.
Qed.

(** At most ten tags: one of the priority tier, seven areas, one type, one
    state. *)
Lemma suggestedTags_length (w : WorkItem) :
  (length (suggestedTags (classifyWorkItem toLowerCase w)) <= 10)%nat.
Proof.
  destruct (classifyWorkItem_locals w) as (l & (_ & rest & fr & Ht & _ & _ & Hlen) & Htags & _).
  rewrite Htags, Ht, length_app, tierLocals_tags.
  destruct (criticalKeywords _ _); [simpl; lia|].
  destruct (highKeywords _); simpl; lia.
Qed.

Lemma confidence_eq (w : WorkItem) :
  confidence (classifyWorkItem toLowerCase w) =
  confidence_of (length (suggestedTags (classifyWorkItem toLowerCase w))).
Proof.
  destruct (classifyWorkItem_locals w) as (l & _ & Htags & _ & Hc & _).
  now rewrite Hc, Htags.
Qed.

End ClassifierProperties.

(** The confidence of zero to ten tags, one value after the other. *)
Lemma confidence_of_range (n : nat) :
  (n <= 10)%nat ->
  PrimFloat.leb 0 (confidence_of n) = true /\
  PrimFloat.leb 0.6 (confidence_of n) = true /\
  PrimFloat.leb (confidence_of n) 0.95 = true.
Proof.
  intros Hn.
  do 11 (destruct n as [|n]; [vm_compute; repeat split; reflexivity|]).
  lia.
Qed.

Lemma confidence_of_monotone (m n : nat) :
  (m <= n)%nat -> (n <= 10)%nat ->
  PrimFloat.leb (confidence_of m) (confidence_of n) = true.
Proof.
  intros Hmn Hn.
  assert (Htable :
    forallb (fun a => forallb (fun b => (b <? a)%nat
                                         || PrimFloat.leb (confidence_of a) (confidence_of b))
                              (seq 0 11)) (seq 0 11) = true)
    by (vm_compute; reflexivity).
  rewrite forallb_forall in Htable.
  assert (Ha : In m (seq 0 11)) by (apply in_seq; lia).
  specialize (Htable m Ha). rewrite forallb_forall in Htable.
  assert (Hb : In n (seq 0 11)) by (apply in_seq; lia).
  specialize (Htable n Hb).
  apply orb_true_iff in Htable. destruct Htable as [Hlt | Hle]; [|exact Hle].
  apply Nat.ltb_lt in Hlt. lia.
Qed.

Lemma startsWith_nonempty (s p : string) :
  startsWith s p = true -> p <> EmptyString -> s <> EmptyString.
Proof. destruct p, s; simpl; congruence. Qed.

(** The binary64 computed is the one nearest to the real value. *)
Lemma confidence_of_literal (n : nat) :
  (n <= 10)%nat -> confidence_of n = confidence_literal n.
Proof.
  intros Hn.
  do 11 (destruct n as [|n]; [vm_compute; reflexivity|]).
  lia.
Qed.

(** A prefix whose last character is no white space survives [trimEnd]. *)
Lemma trimEnd_keeps_prefix (p s : string) :
  ends_in_text p = true -> startsWith (trimEnd (p ++ s)) p = true.
Proof.
  induction p as [|c p IH]; [discriminate|].
  intros H. cbn [append trimEnd].
  destruct p as [|c' p'].
  - cbn [ends_in_text] in H. cbn [append].
    destruct (trimEnd s); [rewrite (proj1 (negb_true_iff _) H)|];
      cbn [startsWith]; rewrite Ascii.eqb_refl; reflexivity.
  - assert (Hp : ends_in_text (String c' p') = true) by exact H.
    specialize (IH Hp).
    pose proof (startsWith_nonempty _ _ IH ltac:(discriminate)) as Hne.
    destruct (trimEnd (String c' p' ++ s)) as [|d t] eqn:E; [congruence|].
    cbn [startsWith]. rewrite Ascii.eqb_refl. exact IH.
Qed.

(** ** The claims about the classifier *)

Section ClassifierClaims.

Variable toLowerCase : string -> string.

(** C1. A work item whose haystack contains "critical", "production down",
    "security" or "data loss", or that is a Bug whose haystack contains
    "blocker", gets the priority Critical and the tag "Critical". The tiers
    are tried in the order Critical, High, Low, with Medium as the default,
    and the first that matches wins; "Critical" and "HighPriority" are never
    both among the tags of one result. *)
Theorem critical_tier_first_match (w : WorkItem) :
  let text := haystack toLowerCase w in
  let r := classifyWorkItem toLowerCase w in
  (includes text "critical" = true \/ includes text "production down" = true \/
   includes text "security" = true \/ includes text "data loss" = true \/
   (type w = Bug /\ includes text "blocker" = true) ->
   suggestedPriority r = Critical /\ In "Critical"%string (suggestedTags r)) /\
  suggestedPriority r =
    (if criticalKeywords text (type w) then Critical
     else if highKeywords text then High
     else if lowKeywords text then Low
     else Medium) /\
  ~ (In "Critical"%string (suggestedTags r) /\ In "HighPriority"%string (suggestedTags r)).
Proof.
  intros text r.
  destruct (classifyWorkItem_locals toLowerCase w)
    as (l & (Hprio & rest & fr & Ht & _ & Hall & _) & Htags & Hp & _).
  fold text in Hprio, Ht. fold r in Htags, Hp.
  rewrite tierLocals_priority in Hprio. rewrite tierLocals_tags in Ht.
  assert (Hrest : forall tag, In tag rest ->
            tag <> "Critical"%string /\ tag <> "HighPriority"%string).
  { intros tag Hin. apply later_tags_no_tier.
    rewrite Forall_forall in Hall. now apply Hall. }
  split; [|split].
  - intros Hkey. apply criticalKeywords_true in Hkey.
    rewrite Hp, Hprio, Htags, Ht, Hkey. split; [reflexivity|].
    apply in_or_app; left; simpl; auto.
  - now rewrite Hp, Hprio.
  - rewrite Htags, Ht. intros [Hc Hh].
    apply in_app_or in Hc. apply in_app_or in Hh.
    destruct Hc as [Hc | Hc]; [| destruct (Hrest _ Hc) as [Hn _]; now apply Hn].
    destruct Hh as [Hh | Hh]; [| destruct (Hrest _ Hh) as [_ Hn]; now apply Hn].
    destruct (criticalKeywords text (type w)).
    + simpl in Hh. destruct Hh as [Hh | []]. discriminate.
    + destruct (highKeywords text); simpl in Hc.
      * destruct Hc as [Hc | []]. discriminate.
      * exact Hc.
Qed.

(** C2 (as amended). A work item whose haystack contains a Low keyword and
    no Critical or High keyword (and that is no Bug with "blocker") gets the
    priority Low and the reasoning fragment of the Low tier, and no tag of a
    priority tier: every tag of the result is one of the area, type and
    state tags, and these alone are counted by the confidence. *)
Theorem low_tier_sets_priority_without_tag (w : WorkItem) :
  let text := haystack toLowerCase w in
  let r := classifyWorkItem toLowerCase w in
  criticalKeywords text (type w) = false ->
  highKeywords text = false ->
  lowKeywords text = true ->
  suggestedPriority r = Low /\
  Forall (fun tag => In tag later_tags) (suggestedTags r) /\
  ~ In "Critical"%string (suggestedTags r) /\
  ~ In "HighPriority"%string (suggestedTags r) /\
  startsWith (reasoning r) "Low priority - non-critical enhancement." = true /\
  confidence r = confidence_of (length (suggestedTags r)).
Proof.
  intros text r Hc Hh Hl.
  destruct (classifyWorkItem_locals toLowerCase w)
    as (l & (Hprio & rest & fr & Ht & Hr & Hall & _) & Htags & Hp & Hconf & Hreason).
  fold text in Hprio, Ht, Hr. fold r in Htags, Hp, Hconf, Hreason.
  rewrite tierLocals_priority, Hc, Hh, Hl in Hprio.
  rewrite tierLocals_tags, Hc, Hh in Ht.
  rewrite (tierLocals_reasoning_low _ _ Hc Hh Hl) in Hr.
  assert (Hlater : Forall (fun tag => In tag later_tags) (suggestedTags r))
    by (now rewrite Htags, Ht).
  split; [|split; [|split; [|split; [|split]]]].
  - now rewrite Hp, Hprio.
  - exact Hlater.
  - intros Hin. rewrite Forall_forall in Hlater.
    destruct (later_tags_no_tier _ (Hlater _ Hin)) as [Hn _]. now apply Hn.
  - intros Hin. rewrite Forall_forall in Hlater.
    destruct (later_tags_no_tier _ (Hlater _ Hin)) as [_ Hn]. now apply Hn.
  - rewrite Hreason, Hr.
    change ("Low priority - non-critical enhancement. " ++ fr)%string
      with ("Low priority - non-critical enhancement." ++ (" " ++ fr))%string.
    assert (Hpre := trimEnd_keeps_prefix
                      "Low priority - non-critical enhancement." (" " ++ fr) eq_refl).
    unfold trim.
    replace (trimStart ("Low priority - non-critical enhancement." ++ (" " ++ fr))%string)
      with ("Low priority - non-critical enhancement." ++ (" " ++ fr))%string
      by reflexivity.
    pose proof (startsWith_nonempty _ _ Hpre ltac:(discriminate)) as Hne.
    destruct (trimEnd _) as [|c t]; [congruence | exact Hpre].
  - now rewrite Hconf, Htags.
Qed.

(** C3. The confidence is [Math.min(0.95, 0.6 + length * 0.1)] for the
    length of the suggested tags, in binary64 arithmetic, which is the
    binary64 nearest to the real min(0.95, 0.6 + 0.1 * length): 0.6, 0.7,
    0.8, 0.9, and 0.95 from four tags on. It lies between 0 and 0.95, and a
    result with at least as many tags has at least the confidence. *)
Theorem confidence_formula_bounds_monotone (w : WorkItem) :
  let r := classifyWorkItem toLowerCase w in
  confidence r =
    Math_min 0.95 (0.6 + (Number_of_nat (length (suggestedTags r)) * 0.1))%float /\
  confidence r = confidence_literal (length (suggestedTags r)) /\
  PrimFloat.leb 0 (confidence r) = true /\
  PrimFloat.leb (confidence r) 0.95 = true /\
  forall w' : WorkItem,
    (length (suggestedTags r)
     <= length (suggestedTags (classifyWorkItem toLowerCase w')))%nat ->
    PrimFloat.leb (confidence r) (confidence (classifyWorkItem toLowerCase w')) = true.
Proof.
  intros r. subst r.
  pose proof (suggestedTags_length toLowerCase w) as Hlen.
  destruct (confidence_of_range _ Hlen) as (H0 & _ & H95).
  rewrite (confidence_eq toLowerCase w).
  split; [reflexivity|]. split; [now apply confidence_of_literal|].
  split; [exact H0|]. split; [exact H95|].
  intros w' Hle. rewrite (confidence_eq toLowerCase w').
  apply confidence_of_monotone; [exact Hle | apply suggestedTags_length].
Qed.

(** C4 (as amended). Two work items with the same title, description, type
    and state get results with the same tags, priority, confidence and
    reasoning; the [workItemId] of a result is the [id] of its work item.
    So the result is a function of id, title, description, type and state,
    and of nothing else. *)
Theorem classifyWorkItem_depends_on (w1 w2 : WorkItem) :
  title w1 = title w2 ->
  description w1 = description w2 ->
  type w1 = type w2 ->
  state w1 = state w2 ->
  let r1 := classifyWorkItem toLowerCase w1 in
  let r2 := classifyWorkItem toLowerCase w2 in
  suggestedTags r1 = suggestedTags r2 /\
  suggestedPriority r1 = suggestedPriority r2 /\
  confidence r1 = confidence r2 /\
  reasoning r1 = reasoning r2 /\
  workItemId r1 = id w1 /\ workItemId r2 = id w2 /\
  (id w1 = id w2 -> r1 = r2).
Proof.
  destruct w1 as [i1 t1 ty1 s1 a1 d1 g1 p1 sp1 u1].
  destruct w2 as [i2 t2 ty2 s2 a2 d2 g2 p2 sp2 u2].
  cbn [title description type state id].
  intros -> -> -> ->.
  unfold classifyWorkItem, haystack.
  cbn [title description type state id suggestedTags suggestedPriority confidence
       reasoning workItemId].
  repeat split. intros ->. reflexivity.
Qed.

(** C10. The confidence is at least 0.6, and at most 0.95. *)
Theorem confidence_at_least_base (w : WorkItem) :
  PrimFloat.leb 0.6 (confidence (classifyWorkItem toLowerCase w)) = true /\
  PrimFloat.leb (confidence (classifyWorkItem toLowerCase w)) 0.95 = true.
Proof.
  pose proof (suggestedTags_length toLowerCase w) as Hlen.
  destruct (confidence_of_range _ Hlen) as (_ & H6 & H95).
  rewrite (confidence_eq toLowerCase w). split; assumption.
Qed.

End ClassifierClaims.

Lemma critical_tier_witness :
  includes (haystack toLowerCase_ascii wi_production_down) "production down" = true /\
  suggestedPriority (classifyWorkItem toLowerCase_ascii wi_production_down) = Critical /\
  In "Critical"%string
     (suggestedTags (classifyWorkItem toLowerCase_ascii wi_production_down)).
Proof.
  split; [vm_compute; reflexivity|].
  apply (proj1 (critical_tier_first_match toLowerCase_ascii wi_production_down)).
  right; left. vm_compute; reflexivity.
Defined.

(** The Low tier pushes no tag: a work item with the Low keyword "cosmetic"
    and nothing else gets the priority Low, no tag at all, and the
    confidence of no tag. *)
Lemma low_tier_tag_counterexample :
  let text := haystack toLowerCase_ascii wi_cosmetic in
  let r := classifyWorkItem toLowerCase_ascii wi_cosmetic in
  includes text "cosmetic" = true /\
  criticalKeywords text (type wi_cosmetic) = false /\
  highKeywords text = false /\
  suggestedPriority r = Low /\
  suggestedTags r = [] /\
  confidence r = 0.6%float /\
  reasoning r = "Low priority - non-critical enhancement."%string /\
  ~ (exists tag, In tag (suggestedTags r)).
Proof.
  vm_compute. repeat split; try reflexivity.
  intros [tag []].
Qed.

Lemma low_tier_witness :
  let text := haystack toLowerCase_ascii wi_cosmetic in
  let r := classifyWorkItem toLowerCase_ascii wi_cosmetic in
  (criticalKeywords text (type wi_cosmetic) = false /\
   highKeywords text = false /\ lowKeywords text = true) /\
  suggestedPriority r = Low /\
  Forall (fun tag => In tag later_tags) (suggestedTags r) /\
  ~ In "Critical"%string (suggestedTags r) /\
  ~ In "HighPriority"%string (suggestedTags r) /\
  startsWith (reasoning r) "Low priority - non-critical enhancement." = true /\
  confidence r = confidence_of (length (suggestedTags r)).
Proof.
  split; [vm_compute; repeat split; reflexivity|].
  apply (low_tier_sets_priority_without_tag toLowerCase_ascii wi_cosmetic);
    vm_compute; reflexivity.
Defined.

(** Two work items with the same title, description, type and state, and
    results that differ: the id is part of the result. *)
Lemma classifyWorkItem_id_counterexample :
  title wi_cosmetic = title wi_cosmetic_other_id /\
  description wi_cosmetic = description wi_cosmetic_other_id /\
  type wi_cosmetic = type wi_cosmetic_other_id /\
  state wi_cosmetic = state wi_cosmetic_other_id /\
  workItemId (classifyWorkItem toLowerCase_ascii wi_cosmetic) = 8%Z /\
  workItemId (classifyWorkItem toLowerCase_ascii wi_cosmetic_other_id) = 9%Z /\
  classifyWorkItem toLowerCase_ascii wi_cosmetic
  <> classifyWorkItem toLowerCase_ascii wi_cosmetic_other_id.
Proof.
  repeat split.
  intros H. apply (f_equal workItemId) in H. vm_compute in H. discriminate H.
Qed.

Lemma classifyWorkItem_depends_on_witness :
  let r1 := classifyWorkItem toLowerCase_ascii wi_cosmetic in
  let r2 := classifyWorkItem toLowerCase_ascii wi_cosmetic_other_id in
  suggestedTags r1 = suggestedTags r2 /\
  suggestedPriority r1 = suggestedPriority r2 /\
  confidence r1 = confidence r2 /\
  reasoning r1 = reasoning r2 /\
  workItemId r1 = 8%Z /\ workItemId r2 = 9%Z /\
  (id wi_cosmetic = id wi_cosmetic_other_id -> r1 = r2).
Proof.
  apply (classifyWorkItem_depends_on toLowerCase_ascii wi_cosmetic wi_cosmetic_other_id);
    reflexivity.
Defined.

Lemma confidence_monotone_witness :
  (length (suggestedTags (classifyWorkItem toLowerCase_ascii wi_cosmetic))
   <= length (suggestedTags (classifyWorkItem toLowerCase_ascii wi_production_down)))%nat /\
  PrimFloat.leb (confidence (classifyWorkItem toLowerCase_ascii wi_cosmetic))
                (confidence (classifyWorkItem toLowerCase_ascii wi_production_down)) = true.
Proof.
  split; [vm_compute; lia|].
  apply (proj2 (proj2 (proj2 (proj2
           (confidence_formula_bounds_monotone toLowerCase_ascii wi_cosmetic))))).
  vm_compute; lia.
Defined.

(* ================================================================== *)
(** * Part IV: properties of the store *)
(* ================================================================== *)

(** ** Maps whose keys are strings or integers *)

Lemma SameValueZero_VStr (key : jsval) (s : string) :
  SameValueZero key (VStr s) = true <-> key = VStr s.
Proof.
  unfold SameValueZero.
  destruct key; cbn; rewrite ?andb_false_r, ?orb_false_r;
    try (split; [discriminate | congruence]).
  rewrite String.eqb_eq. split; congruence.
Qed.

Lemma SameValueZero_VInt (key : jsval) (z : Z) :
  no_float key -> SameValueZero key (VInt z) = true <-> key = VInt z.
Proof.
  unfold SameValueZero. intros Hk.
  destruct key; cbn in *; rewrite ?andb_false_r, ?orb_false_r;
    try (split; [discriminate | congruence]); try contradiction.
  rewrite Z.eqb_eq. split; congruence.
Qed.

Section ExactKeys.

(** Keys [inj a] that are the same only as themselves, among the keys that
    satisfy [P]. *)
Context {K V : Type} (inj : K -> jsval) (P : jsval -> Prop).
Hypothesis inj_P : forall a, P (inj a).
Hypothesis inj_same :
  forall key a, P key -> SameValueZero key (inj a) = true <-> key = inj a.
Hypothesis inj_key : forall a, Map_key (inj a) = inj a.
Hypothesis inj_inj : forall a b, inj a = inj b -> a = b.

Lemma inj_same_refl (a : K) : SameValueZero (inj a) (inj a) = true.
Proof. apply inj_same; [apply inj_P | reflexivity]. Qed.

Lemma inj_same_neq (a b : K) : a <> b -> SameValueZero (inj a) (inj b) = false.
Proof.
  intros Hab. destruct (SameValueZero (inj a) (inj b)) eqn:E; [|reflexivity].
  apply inj_same in E; [|apply inj_P]. apply inj_inj in E. contradiction.
Qed.

Lemma Map_get_set_same (m : JSMap V) (a : K) (v : V) :
  Map_get (Map_set m (inj a) v) (inj a) = Some v.
Proof.
  induction m as [|[k0 v0] m IH]; cbn [Map_set Map_get].
  - now rewrite inj_key, inj_same_refl.
  - destruct (SameValueZero k0 (inj a)) eqn:E; cbn [Map_get]; rewrite E;
      [reflexivity | exact IH].
Qed.

Lemma Map_get_set_other (m : JSMap V) (a b : K) (v : V) :
  a <> b -> Forall P (Map_keys m) ->
  Map_get (Map_set m (inj a) v) (inj b) = Map_get m (inj b).
Proof.
  intros Hab. induction m as [|[k0 v0] m IH]; intros HP; cbn [Map_set Map_get].
  - now rewrite inj_key, inj_same_neq.
  - inversion HP as [|? ? Hk0 HP']; subst.
    destruct (SameValueZero k0 (inj a)) eqn:E; cbn [Map_get].
    + apply inj_same in E; [|exact Hk0]. subst k0.
      now rewrite inj_same_neq.
    + destruct (SameValueZero k0 (inj b)); [reflexivity | now apply IH].
Qed.

Lemma Map_set_keys_P (m : JSMap V) (a : K) (v : V) :
  Forall P (Map_keys m) -> Forall P (Map_keys (Map_set m (inj a) v)).
Proof.
  induction m as [|[k0 v0] m IH]; intros HP; cbn [Map_set].
  - rewrite inj_key. repeat constructor. apply inj_P.
  - inversion HP as [|? ? Hk0 HP']; subst.
    destruct (SameValueZero k0 (inj a)); cbn [Map_keys map fst];
      constructor; auto.
Qed.

Lemma Map_get_In (m : JSMap V) (ks : list K) (a : K) :
  Map_keys m = map inj ks ->
  (exists v, Map_get m (inj a) = Some v) <-> In a ks.
Proof.
  revert ks. induction m as [|[k0 v0] m IH]; intros ks Hk; cbn [Map_get].
  - destruct ks; [|discriminate]. split; [intros [v Hv]; discriminate | intros []].
  - destruct ks as [|k ks]; [discriminate|]. cbn in Hk. injection Hk as -> Hk.
    destruct (SameValueZero (inj k) (inj a)) eqn:E.
    + apply inj_same in E; [|apply inj_P]. apply inj_inj in E. subst k.
      split; [intros _; left; reflexivity | intros _; eexists; reflexivity].
    + rewrite (IH ks Hk). split; [intros H; right; exact H|].
      intros [-> | H]; [|exact H]. now rewrite inj_same_refl in E.
Qed.

Lemma Map_get_None (m : JSMap V) (ks : list K) (a : K) :
  Map_keys m = map inj ks -> ~ In a ks -> Map_get m (inj a) = None.
Proof.
  intros Hk Hn. destruct (Map_get m (inj a)) as [v|] eqn:E; [|reflexivity].
  exfalso. apply Hn. apply (Map_get_In m ks a Hk). now exists v.
Qed.

(** A key that is there keeps the keys; a new key comes last. *)
Lemma Map_set_present (m : JSMap V) (ks : list K) (a : K) (v : V) :
  Map_keys m = map inj ks -> In a ks ->
  Map_keys (Map_set m (inj a) v) = map inj ks.
Proof.
  revert ks. induction m as [|[k0 v0] m IH]; intros ks Hk Hin; cbn [Map_set].
  - destruct ks; [destruct Hin | discriminate].
  - destruct ks as [|k ks]; [discriminate|]. cbn in Hk. injection Hk as -> Hk.
    destruct (SameValueZero (inj k) (inj a)) eqn:E; cbn; [now rewrite Hk|].
    f_equal. apply IH; [exact Hk|].
    destruct Hin as [-> | Hin]; [now rewrite inj_same_refl in E | exact Hin].
Qed.

Lemma Map_set_absent (m : JSMap V) (ks : list K) (a : K) (v : V) :
  Map_keys m = map inj ks -> ~ In a ks ->
  Map_set m (inj a) v = m ++ [(inj a, v)].
Proof.
  revert ks. induction m as [|[k0 v0] m IH]; intros ks Hk Hn; cbn [Map_set].
  - now rewrite inj_key.
  - destruct ks as [|k ks]; [discriminate|]. cbn in Hk. injection Hk as -> Hk.
    rewrite inj_same_neq.
    + cbn. f_equal. apply (IH ks); [exact Hk|]. intros H; apply Hn; now right.
    + intros ->. apply Hn; now left.
Qed.

End ExactKeys.

(** The two instances: sprint names and work item ids. *)
Lemma VStr_same (key : jsval) (s : string) :
  True -> SameValueZero key (VStr s) = true <-> key = VStr s.
Proof. intros _. apply SameValueZero_VStr. Qed.

Lemma VStr_inj (a b : string) : VStr a = VStr b -> a = b.
Proof. congruence. Qed.

Lemma VInt_inj (a b : Z) : VInt a = VInt b -> a = b.
Proof. congruence. Qed.

Lemma VInt_no_float (z : Z) : no_float (VInt z).
Proof. exact I. Qed.

Lemma sprints_get_set_same {V : Type} (m : JSMap V) (name : string) (v : V) :
  Map_get (Map_set m (VStr name) v) (VStr name) = Some v.
Proof.
  apply (Map_get_set_same VStr (fun _ => True)); auto using VStr_same.
Qed.

Lemma sprints_get_set_other {V : Type} (m : JSMap V) (a b : string) (v : V) :
  a <> b -> Map_get (Map_set m (VStr a) v) (VStr b) = Map_get m (VStr b).
Proof.
  intros Hab.
  apply (Map_get_set_other VStr (fun _ => True)); auto using VStr_same, VStr_inj.
  apply Forall_forall; auto.
Qed.

Lemma ids_get_set_same (m : JSMap jsval) (i : Z) (v : jsval) :
  Map_get (Map_set m (VInt i) v) (VInt i) = Some v.
Proof.
  apply (Map_get_set_same VInt no_float);
    auto using VInt_no_float, SameValueZero_VInt.
Qed.

Lemma ids_get_set_other (m : JSMap jsval) (i j : Z) (v : jsval) :
  i <> j -> Forall no_float (Map_keys m) ->
  Map_get (Map_set m (VInt i) v) (VInt j) = Map_get m (VInt j).
Proof.
  intros Hij Hm.
  apply (Map_get_set_other VInt no_float);
    auto using VInt_no_float, SameValueZero_VInt, VInt_inj.
Qed.

Lemma ids_set_no_float (m : JSMap jsval) (i : Z) (v : jsval) :
  Forall no_float (Map_keys m) -> Forall no_float (Map_keys (Map_set m (VInt i) v)).
Proof.
  apply (Map_set_keys_P VInt no_float);
    auto using VInt_no_float, SameValueZero_VInt.
Qed.

(** ** Recording a list of items under their integer keys *)

Section RecordAll.

Context {X : Type} (key : X -> Z) (val : X -> jsval).


Lemma record_all_snoc (m : JSMap jsval) (xs : list X) (x : X) :
  record_all key val m (xs ++ [x]) = Map_set (record_all key val m xs) (VInt (key x)) (val x).
Proof. unfold record_all. now rewrite fold_left_app. Qed.

Lemma last_with_snoc (i : Z) (xs : list X) (x : X) :
  last_with key i (xs ++ [x]) = if Z.eqb (key x) i then Some x else last_with key i xs.
Proof. unfold last_with. now rewrite rev_app_distr. Qed.

Lemma last_with_None (i : Z) (xs : list X) :
  last_with key i xs = None <-> ~ In i (map key xs).
Proof.
  unfold last_with. split.
  - intros H Hin. apply in_map_iff in Hin. destruct Hin as (x & Hx & Hin).
    apply in_rev in Hin. apply (find_none _ _ H) in Hin.
    rewrite Hx, Z.eqb_refl in Hin. discriminate.
  - intros Hn. destruct (find _ (rev xs)) as [x|] eqn:E; [|reflexivity].
    apply find_some in E. destruct E as [Hin Hk]. apply Z.eqb_eq in Hk.
    exfalso. apply Hn. apply in_map_iff. exists x. split; [exact Hk|].
    now apply in_rev.
Qed.

Lemma last_with_Some (i : Z) (xs : list X) (x : X) :
  last_with key i xs = Some x -> In x xs /\ key x = i.
Proof.
  unfold last_with. intros H. apply find_some in H. destruct H as [Hin Hk].
  split; [now apply in_rev | now apply Z.eqb_eq].
Qed.

Lemma record_all_no_float (m : JSMap jsval) (xs : list X) :
  Forall no_float (Map_keys m) -> Forall no_float (Map_keys (record_all key val m xs)).
Proof.
  intros Hm. induction xs as [|x xs IH] using rev_ind; [exact Hm|].
  rewrite record_all_snoc. now apply ids_set_no_float.
Qed.

(** Last write wins: a key of [xs] maps to its last item, any other key to
    what it mapped to before. *)
Lemma record_all_get (m : JSMap jsval) (xs : list X) (i : Z) :
  Forall no_float (Map_keys m) ->
  Map_get (record_all key val m xs) (VInt i) =
    match last_with key i xs with
    | Some x => Some (val x)
    | None => Map_get m (VInt i)
    end.
Proof.
  intros Hm. induction xs as [|x xs IH] using rev_ind; [reflexivity|].
  rewrite record_all_snoc, last_with_snoc.
  destruct (Z.eqb (key x) i) eqn:E.
  - apply Z.eqb_eq in E. subst i. apply ids_get_set_same.
  - apply Z.eqb_neq in E. rewrite ids_get_set_other; auto.
    now apply record_all_no_float.
Qed.

(** The keys after recording: those before, then the new ones, each once. *)
Lemma record_all_keys (m : JSMap jsval) (ks : list Z) (xs : list X) :
  Map_keys m = map VInt ks -> NoDup ks ->
  exists ks',
    Map_keys (record_all key val m xs) = map VInt ks' /\ NoDup ks' /\
    (forall i, In i ks' <-> In i ks \/ In i (map key xs)).
Proof.
  intros Hk Hnd. induction xs as [|x xs IH] using rev_ind.
  - exists ks. repeat split; auto. intros [H | []]; exact H.
  - destruct IH as (ks' & Hk' & Hnd' & Hin').
    rewrite record_all_snoc.
    destruct (in_dec Z.eq_dec (key x) ks') as [Hin | Hnin].
    + exists ks'. repeat split; auto.
      * apply (Map_set_present VInt no_float);
          auto using VInt_no_float, SameValueZero_VInt, VInt_inj.
      * intros H. apply Hin' in H. rewrite map_app, in_app_iff. tauto.
      * rewrite map_app, in_app_iff. cbn. intros [H | [H | [H | []]]].
        -- apply Hin'; now left.
        -- apply Hin'; now right.
        -- now subst i.
    + exists (ks' ++ [key x]). repeat split.
      * rewrite (Map_set_absent VInt no_float) with (ks := ks');
          auto using VInt_no_float, SameValueZero_VInt, VInt_inj.
        unfold Map_keys in *. now rewrite !map_app, Hk'.
      * apply NoDup_app; repeat split; auto.
        -- repeat constructor; intros [].
        -- intros a Ha [<- | []]. contradiction.
      * rewrite in_app_iff, map_app, in_app_iff. cbn. intros [H | [H | []]].
        -- apply Hin' in H. tauto.
        -- subst i. tauto.
      * rewrite in_app_iff, map_app, in_app_iff. cbn. intros [H | [H | [H | []]]].
        -- left; apply Hin'; now left.
        -- left; apply Hin'; now right.
        -- right; left; exact H.
Qed.

(** From an empty map: as many entries as distinct keys. *)
Lemma record_all_size (xs : list X) :
  Map_size (record_all key val [] xs) = length (nodup Z.eq_dec (map key xs)).
Proof.
  destruct (record_all_keys [] [] xs eq_refl (NoDup_nil _)) as (ks' & Hk & Hnd & Hin).
  unfold Map_size. rewrite <- (length_map fst). fold (Map_keys (record_all key val [] xs)).
  rewrite Hk, length_map.
  apply Permutation_length.
  apply NoDup_Permutation; [exact Hnd | apply NoDup_nodup |].
  intros i. rewrite nodup_In, Hin. cbn. tauto.
Qed.

End RecordAll.

(** ** The methods, run *)

Lemma getOrCreateSprintState_run (now : Z) (name : string) (sprints : Store) :
  getOrCreateSprintState now name sprints =
  (Normal (state_before now name sprints), store_with now name sprints).
Proof.
  unfold getOrCreateSprintState, state_before, store_with, bind, this_sprints,
    set_this_sprints, ret, Map_has.
  destruct (Map_get sprints (VStr name)) as [state|] eqn:E; cbn [negb].
  - now rewrite E.
  - now rewrite sprints_get_set_same.
Qed.

Lemma updateWorkItems_run (created now : Z) (name : string) (items : list WorkItem)
  (sprints : Store) :
  updateWorkItems created now name items sprints =
  (Normal tt,
   Map_set (store_with created name sprints) (VStr name)
     {| sprintName := sprintName (state_before created name sprints);
        workItems := record_all id WorkItem_value
                       (workItems (state_before created name sprints)) items;
        lastSyncTime := Date_at now;
        classifications := classifications (state_before created name sprints) |}).
Proof.
  unfold updateWorkItems, bind. rewrite getOrCreateSprintState_run.
  reflexivity.
Qed.

Lemma storeClassifications_run (created : Z) (name : string)
  (results : list ClassificationResult) (sprints : Store) :
  storeClassifications created name results sprints =
  (Normal tt,
   Map_set (store_with created name sprints) (VStr name)
     {| sprintName := sprintName (state_before created name sprints);
        workItems := workItems (state_before created name sprints);
        lastSyncTime := lastSyncTime (state_before created name sprints);
        classifications :=
          record_all workItemId ClassificationResult_value
            (classifications (state_before created name sprints)) results |}).
Proof.
  unfold storeClassifications, bind. rewrite getOrCreateSprintState_run.
  reflexivity.
Qed.

Lemma store_with_other (created : Z) (name other : string) (sprints : Store) :
  other <> name ->
  Map_get (store_with created name sprints) (VStr other) = Map_get sprints (VStr other).
Proof.
  intros Hne. unfold store_with.
  destruct (Map_get sprints (VStr name)); [reflexivity|].
  apply sprints_get_set_other. congruence.
Qed.

Lemma Map_has_false {V : Type} (m : JSMap V) (key : jsval) :
  Map_has m key = false <-> Map_get m key = None.
Proof.
  unfold Map_has. destruct (Map_get m key); split; congruence.
Qed.

(** ** The claims about the store's methods *)

(** C6. [storeClassifications] sets the results in the classification
    mapping of the sprint under their [workItemId] (the last result of an
    id wins, the other entries stay) and keeps the sprint's [lastSyncTime]
    and work items, on a state that it creates empty if the sprint is
    unknown; the other sprints stay as they are. [updateWorkItems] sets
    [lastSyncTime] to the time of the call, whatever the items. *)
Theorem storeClassifications_frame (created : Z) (name : string)
  (results : list ClassificationResult) (sprints : Store) :
  let before := state_before created name sprints in
  let after := snd (storeClassifications created name results sprints) in
  fst (storeClassifications created name results sprints) = Normal tt /\
  (Map_get sprints (VStr name) = None -> before = fresh_state created name) /\
  (forall state, Map_get sprints (VStr name) = Some state -> before = state) /\
  (exists state,
     Map_get after (VStr name) = Some state /\
     lastSyncTime state = lastSyncTime before /\
     workItems state = workItems before /\
     classifications state =
       fold_left
         (fun m classification =>
            Map_set m (VInt (workItemId classification))
                    (ClassificationResult_value classification))
         results (classifications before) /\
     (Forall no_float (Map_keys (classifications before)) ->
      forall i : Z,
        Map_get (classifications state) (VInt i) =
          match last_with workItemId i results with
          | Some c => Some (ClassificationResult_value c)
          | None => Map_get (classifications before) (VInt i)
          end)) /\
  (forall other : string,
     other <> name -> Map_get after (VStr other) = Map_get sprints (VStr other)) /\
  (forall (created' now : Z) (items : list WorkItem),
     fst (updateWorkItems created' now name items sprints) = Normal tt /\
     exists state,
       Map_get (snd (updateWorkItems created' now name items sprints)) (VStr name)
         = Some state /\
       lastSyncTime state = Date_at now).
Proof.
  intros before after. subst after. rewrite storeClassifications_run.
  cbn [fst snd]. fold before.
  split; [reflexivity|]. split; [|split; [|split; [|split]]].
  - intros H. subst before. unfold state_before. now rewrite H.
  - intros state H. subst before. unfold state_before. now rewrite H.
  - eexists. split; [apply sprints_get_set_same|].
    cbn [lastSyncTime workItems classifications].
    repeat split. intros Hk i.
    apply (record_all_get workItemId ClassificationResult_value). exact Hk.
  - intros other Hne. rewrite sprints_get_set_other by congruence.
    now apply store_with_other.
  - intros created' now items. rewrite updateWorkItems_run. cbn [fst snd].
    split; [reflexivity|].
    eexists. split; [apply sprints_get_set_same | reflexivity].
Qed.

(** C7. For a sprint name that the store does not have, [getWorkItems] and
    [getClassifications] return the empty array and [getSprintStats]
    returns null; none of them throws, and none of them changes the store,
    so [getAllSprints] returns after each what it returned before. *)
Theorem unknown_sprint_lookups (name : string) (sprints : Store) :
  Map_has sprints (VStr name) = false ->
  getWorkItems name sprints = (Normal [], sprints) /\
  getClassifications name sprints = (Normal [], sprints) /\
  getSprintStats name sprints = (Normal None, sprints) /\
  getAllSprints (snd (getWorkItems name sprints)) = getAllSprints sprints /\
  getAllSprints (snd (getClassifications name sprints)) = getAllSprints sprints /\
  getAllSprints (snd (getSprintStats name sprints)) = getAllSprints sprints.
Proof.
  intros H. apply Map_has_false in H.
  unfold getWorkItems, getClassifications, getSprintStats, bind, this_sprints, ret.
  rewrite H. cbn [snd]. repeat split; reflexivity.
Qed.

Lemma last_with_app {X : Type} (key : X -> Z) (i : Z) (xs ys : list X) :
  last_with key i (xs ++ ys) =
    match last_with key i ys with
    | Some y => Some y
    | None => last_with key i xs
    end.
Proof.
  unfold last_with. rewrite rev_app_distr.
  induction (rev ys) as [|y l IH]; cbn; [reflexivity|].
  destruct (Z.eqb (key y) i); [reflexivity | exact IH].
Qed.

Lemma last_with_In {X : Type} (key : X -> Z) (i : Z) (xs : list X) :
  In i (map key xs) -> exists x, last_with key i xs = Some x.
Proof.
  intros Hin. destruct (last_with key i xs) as [x|] eqn:E; [now exists x|].
  apply last_with_None in E. contradiction.
Qed.

Lemma getWorkItems_empty (name : string) (sprints : Store) (created : Z) :
  fst (getWorkItems name sprints) = Normal [] ->
  workItems (state_before created name sprints) = [].
Proof.
  unfold getWorkItems, state_before, bind, this_sprints, ret.
  destruct (Map_get sprints (VStr name)) as [state|]; cbn; [|reflexivity].
  intros H. injection H as H. unfold Map_values in H.
  now apply map_eq_nil in H.
Qed.

(** C8 (as amended). After [updateWorkItems s A] and then
    [updateWorkItems s B], on a store whose sprint [s] holds work items
    under integer ids, each once (none, if the sprint is new): every id of
    [B] maps to the item of [B] (the last with that id), whole; every id of
    [A] alone maps to the item of [A]; every other id keeps the item that
    the sprint held; and [getWorkItems s] has as many items as the ids that
    the sprint held and the ids of [A] and [B] are distinct ids together.
    For a sprint that held no work item, that is the number of distinct
    ids across [A] and [B]. *)
Theorem updateWorkItems_last_write_wins (created1 now1 created2 now2 : Z)
  (name : string) (A B : list WorkItem) (sprints : Store) (held : list Z) :
  let before := state_before created1 name sprints in
  Map_keys (workItems before) = map VInt held ->
  NoDup held ->
  let after := snd (updateWorkItems created2 now2 name B
                      (snd (updateWorkItems created1 now1 name A sprints))) in
  exists state,
    Map_get after (VStr name) = Some state /\
    (forall i : Z, In i (map id B) ->
       exists b, In b B /\ id b = i /\ last_with id i B = Some b /\
                 Map_get (workItems state) (VInt i) = Some (WorkItem_value b)) /\
    (forall i : Z, In i (map id A) -> ~ In i (map id B) ->
       exists a, In a A /\ id a = i /\ last_with id i A = Some a /\
                 Map_get (workItems state) (VInt i) = Some (WorkItem_value a)) /\
    (forall i : Z, ~ In i (map id A) -> ~ In i (map id B) ->
       Map_get (workItems state) (VInt i) = Map_get (workItems before) (VInt i)) /\
    getWorkItems name after = (Normal (Map_values (workItems state)), after) /\
    length (Map_values (workItems state))
    = length (nodup Z.eq_dec (held ++ map id (A ++ B))) /\
    (held = [] ->
     length (Map_values (workItems state)) = length (nodup Z.eq_dec (map id (A ++ B)))).
Proof.
  intros before Hkeys Hnd after. subst after.
  rewrite (updateWorkItems_run created1), (updateWorkItems_run created2).
  cbn [snd]. fold before.
  set (s1 := Map_set (store_with created1 name sprints) (VStr name) _).
  assert (H1 : Map_get s1 (VStr name) = Some
            {| sprintName := sprintName before;
               workItems := record_all id WorkItem_value (workItems before) A;
               lastSyncTime := Date_at now1;
               classifications := classifications before |})
    by (subst s1; apply sprints_get_set_same).
  assert (Hb : state_before created2 name s1 =
            {| sprintName := sprintName before;
               workItems := record_all id WorkItem_value (workItems before) A;
               lastSyncTime := Date_at now1;
               classifications := classifications before |})
    by (unfold state_before; now rewrite H1).
  rewrite Hb. cbn [sprintName workItems classifications].
  assert (Hrec : record_all id WorkItem_value
                   (record_all id WorkItem_value (workItems before) A) B
                 = record_all id WorkItem_value (workItems before) (A ++ B))
    by (unfold record_all; now rewrite fold_left_app).
  rewrite Hrec.
  eexists. split; [apply sprints_get_set_same|].
  cbn [workItems].
  assert (Hfloat : Forall no_float (Map_keys (workItems before))).
  { rewrite Hkeys. apply Forall_forall. intros k Hk.
    apply in_map_iff in Hk. destruct Hk as (i & <- & _). exact I. }
  assert (Hget : forall i,
            Map_get (record_all id WorkItem_value (workItems before) (A ++ B)) (VInt i) =
            match last_with id i (A ++ B) with
            | Some x => Some (WorkItem_value x)
            | None => Map_get (workItems before) (VInt i)
            end)
    by (intros i; now apply (record_all_get id WorkItem_value)).
  assert (Hlen : length (Map_values
                           (record_all id WorkItem_value (workItems before) (A ++ B)))
                 = length (nodup Z.eq_dec (held ++ map id (A ++ B)))).
  { destruct (record_all_keys id WorkItem_value (workItems before) held (A ++ B)
                Hkeys Hnd) as (ks & Hk & Hndk & Hin).
    unfold Map_values. rewrite length_map, <- (length_map fst).
    fold (Map_keys (record_all id WorkItem_value (workItems before) (A ++ B))).
    rewrite Hk, length_map.
    apply Permutation_length.
    apply NoDup_Permutation; [exact Hndk | apply NoDup_nodup |].
    intros i. rewrite nodup_In, Hin, in_app_iff. tauto. }
  split; [|split; [|split; [|split; [|split]]]].
  - intros i Hin. destruct (last_with_In id i B Hin) as [b Hb'].
    destruct (last_with_Some id i B b Hb') as [HinB Hid].
    exists b. repeat split; auto.
    now rewrite Hget, last_with_app, Hb'.
  - intros i HinA HninB. destruct (last_with_In id i A HinA) as [a Ha].
    destruct (last_with_Some id i A a Ha) as [HinA' Hid].
    exists a. repeat split; auto.
    apply last_with_None in HninB.
    now rewrite Hget, last_with_app, HninB, Ha.
  - intros i HninA HninB.
    apply last_with_None in HninA. apply last_with_None in HninB.
    now rewrite Hget, last_with_app, HninB, HninA.
  - unfold getWorkItems, bind, this_sprints, ret.
    now rewrite sprints_get_set_same.
  - exact Hlen.
  - intros ->. exact Hlen.
Qed.

(** ** Export and import *)

Section Rebuild.

Context {K V : Type} (inj : K -> jsval) (P : jsval -> Prop).
Hypothesis inj_P : forall a, P (inj a).
Hypothesis inj_same :
  forall key a, P key -> SameValueZero key (inj a) = true <-> key = inj a.
Hypothesis inj_key : forall a, Map_key (inj a) = inj a.
Hypothesis inj_inj : forall a b, inj a = inj b -> a = b.


End Rebuild.


Lemma Map_set_values {V : Type} (Q : V -> Prop) (m : JSMap V) (key : jsval) (v : V) :
  Forall Q (Map_values m) -> Q v -> Forall Q (Map_values (Map_set m key v)).
Proof.
  intros Hm Hv. induction m as [|[k0 v0] m IH]; cbn [Map_set].
  - repeat constructor. exact Hv.
  - inversion Hm as [|? ? H0 Hm']; subst.
    destruct (SameValueZero k0 key); cbn; constructor; auto.
Qed.

Lemma record_all_values {X : Type} (key : X -> Z) (val : X -> jsval)
  (Q : jsval -> Prop) (m : JSMap jsval) (xs : list X) :
  Forall Q (Map_values m) -> (forall x, In x xs -> Q (val x)) ->
  Forall Q (Map_values (record_all key val m xs)).
Proof.
  intros Hm Hxs. induction xs as [|x xs IH] using rev_ind; [exact Hm|].
  rewrite record_all_snoc. apply Map_set_values.
  - apply IH. intros y Hy. apply Hxs. apply in_or_app; now left.
  - apply Hxs. apply in_or_app; right; now left.
Qed.

Lemma classifyWorkItems_map (toLowerCase : string -> string) (items : list WorkItem) :
  classifyWorkItems toLowerCase items = map (classifyWorkItem toLowerCase) items.
Proof.
  unfold classifyWorkItems.
  assert (H : forall acc, fold_left
            (fun results workItem => push results (classifyWorkItem toLowerCase workItem))
            items acc = acc ++ map (classifyWorkItem toLowerCase) items).
  { induction items as [|w items IH]; intros acc; cbn.
    - now rewrite app_nil_r.
    - rewrite IH. unfold push. now rewrite <- app_assoc. }
  apply (H []).
Qed.

(** The confidence of a result can be written in JSON. *)
Lemma confidence_of_JSON (n : nat) :
  (n <= 10)%nat ->
  PrimFloat.is_finite (confidence_of n)
  && negb (PrimFloat.is_zero (confidence_of n) && PrimFloat.get_sign (confidence_of n))
  = true.
Proof.
  intros Hn.
  do 11 (destruct n as [|n]; [vm_compute; reflexivity|]).
  lia.
Qed.

Section JSONValues.

Variable toISOString : Z -> string.

Lemma JSON_value_VArr (l : list jsval) :
  JSON_value toISOString (VArr l) = option_map VArr (JSON_values toISOString l).
Proof.
  cbn [JSON_value]. f_equal.
  induction l as [|x l IH]; [reflexivity|].
  cbn [JSON_values]. rewrite <- IH. reflexivity.
Qed.

Lemma JSON_value_VObj (l : list (string * jsval)) :
  JSON_value toISOString (VObj l) =
    if distinct (map fst l)
    then option_map VObj (JSON_members toISOString l) else None.
Proof.
  cbn [JSON_value]. destruct (distinct (map fst l)); [|reflexivity]. f_equal.
  induction l as [|[k x] l IH]; [reflexivity|].
  cbn [JSON_members]. rewrite <- IH. reflexivity.
Qed.

Lemma JSON_values_map {A : Type} (f g : A -> jsval) (l : list A) :
  (forall x, In x l -> JSON_value toISOString (f x) = Some (g x)) ->
  JSON_values toISOString (map f l) = Some (map g l).
Proof.
  induction l as [|x l IH]; intros H; [reflexivity|].
  cbn [map JSON_values]. rewrite (H x (or_introl eq_refl)), IH; [reflexivity|].
  intros y Hy. apply H. now right.
Qed.

Lemma plain_VArr (l : list jsval) : Forall (plain toISOString) l -> plain toISOString (VArr l).
Proof.
  intros H. unfold plain. rewrite JSON_value_VArr.
  rewrite <- (map_id l) at 1. rewrite (JSON_values_map (fun x => x) (fun x => x)).
  - now rewrite map_id.
  - intros x Hx. rewrite Forall_forall in H. now apply H.
Qed.

Lemma JSON_members_plain (l : list (string * jsval)) :
  Forall (fun p => plain toISOString (snd p)) l -> JSON_members toISOString l = Some l.
Proof.
  induction l as [|[k x] l IH]; intros H; [reflexivity|].
  inversion H as [|? ? Hx Hl]; subst. cbn [JSON_members].
  cbn in Hx. unfold plain in Hx. now rewrite Hx, (IH Hl).
Qed.

Lemma plain_VObj (l : list (string * jsval)) :
  distinct (map fst l) = true -> Forall (fun p => plain toISOString (snd p)) l -> plain toISOString (VObj l).
Proof.
  intros Hd H. unfold plain. rewrite JSON_value_VObj, Hd.
  now rewrite (JSON_members_plain l H).
Qed.

Lemma plain_strings (l : list string) : plain toISOString (VArr (map VStr l)).
Proof.
  apply plain_VArr. apply Forall_forall. intros x Hx.
  apply in_map_iff in Hx. destruct Hx as (s & <- & _). reflexivity.
Qed.

Lemma plain_optional (name : string) (v : option jsval) :
  (forall x, v = Some x -> plain toISOString x) ->
  Forall (fun p => plain toISOString (snd p)) (optional name v).
Proof.
  intros H. destruct v as [x|]; cbn; repeat constructor. now apply H.
Qed.

Lemma plain_WorkItem_value (wi : WorkItem) : plain toISOString (WorkItem_value wi).
Proof.
  unfold WorkItem_value. apply plain_VObj.
  - destruct (assignedTo wi), (description wi), (tags wi), (priority wi),
      (sprint wi), (url wi); reflexivity.
  - repeat (apply Forall_app; split).
    + repeat constructor.
    + apply plain_optional. intros x Hx.
      destruct (assignedTo wi); inversion Hx; reflexivity.
    + apply plain_optional. intros x Hx.
      destruct (description wi); inversion Hx; reflexivity.
    + apply plain_optional. intros x Hx.
      destruct (tags wi); inversion Hx. apply plain_strings.
    + apply plain_optional. intros x Hx.
      destruct (priority wi); inversion Hx; reflexivity.
    + apply plain_optional. intros x Hx.
      destruct (sprint wi); inversion Hx; reflexivity.
    + apply plain_optional. intros x Hx.
      destruct (url wi); inversion Hx; reflexivity.
Qed.

Lemma plain_ClassificationResult_value (toLowerCase : string -> string) (wi : WorkItem) :
  plain toISOString (ClassificationResult_value (classifyWorkItem toLowerCase wi)).
Proof.
  unfold ClassificationResult_value. apply plain_VObj; [reflexivity|].
  repeat constructor; cbn [snd]; try reflexivity.
  - apply plain_strings.
  - unfold plain. cbn [JSON_value].
    rewrite (confidence_eq toLowerCase wi).
    now rewrite (confidence_of_JSON _ (suggestedTags_length toLowerCase wi)).
Qed.

End JSONValues.

Lemma Map_get_entry {V : Type} (m : JSMap V) (key : jsval) (v : V) :
  Map_get m key = Some v -> exists k0, In (k0, v) m /\ SameValueZero k0 key = true.
Proof.
  induction m as [|[k0 v0] m IH]; cbn [Map_get]; [discriminate|].
  destruct (SameValueZero k0 key) eqn:E.
  - intros H. injection H as ->. exists k0. split; [now left | exact E].
  - intros H. destruct (IH H) as (k1 & Hin & Hk). exists k1. split; [now right | exact Hk].
Qed.

Lemma Map_set_entries {V : Type} (Q : jsval * V -> Prop) (m : JSMap V)
  (key : jsval) (v : V) :
  Forall Q m ->
  (forall k0, SameValueZero k0 key = true -> Q (k0, v)) ->
  Q (Map_key key, v) ->
  Forall Q (Map_set m key v).
Proof.
  intros Hm Hsame Hnew. induction m as [|[k0 v0] m IH]; cbn [Map_set].
  - repeat constructor. exact Hnew.
  - inversion Hm as [|? ? H0 Hm']; subst.
    destruct (SameValueZero k0 key) eqn:E; constructor; auto.
Qed.

(** ** The stores that the agent builds can be kept in a snapshot *)

Section ReachableStores.

Variable toISOString : Z -> string.
Variable toLowerCase : string -> string.

Lemma fresh_state_ok (created : Z) (name : string) :
  state_ok toISOString (VStr name) (fresh_state created name).
Proof.
  unfold state_ok, fresh_state; cbn.
  repeat split; try constructor; try (exists []; split; [reflexivity | constructor]).
  now exists created.
Qed.

Lemma store_ok_set (sprints : Store) (name : string) (state : SprintState) :
  store_ok toISOString sprints -> state_ok toISOString (VStr name) state ->
  store_ok toISOString (Map_set sprints (VStr name) state).
Proof.
  intros [(names & Hk & Hnd) Hall] Hs. split.
  - destruct (in_dec string_dec name names) as [Hin | Hnin].
    + exists names. split; [|exact Hnd].
      apply (Map_set_present VStr (fun _ => True)); auto using VStr_same, VStr_inj.
    + exists (names ++ [name]). split.
      * rewrite (Map_set_absent VStr (fun _ => True)) with (ks := names);
          auto using VStr_same, VStr_inj.
        unfold Map_keys in *. now rewrite !map_app, Hk.
      * apply NoDup_app; repeat split; auto.
        -- repeat constructor; intros [].
        -- intros a Ha [<- | []]. contradiction.
  - apply Map_set_entries; [exact Hall | | exact Hs].
    intros k0 Hk0. apply SameValueZero_VStr in Hk0. subst k0. exact Hs.
Qed.

Lemma state_before_ok (created : Z) (name : string) (sprints : Store) :
  store_ok toISOString sprints ->
  state_ok toISOString (VStr name) (state_before created name sprints).
Proof.
  intros [_ Hall]. unfold state_before.
  destruct (Map_get sprints (VStr name)) as [state|] eqn:E; [|apply fresh_state_ok].
  apply Map_get_entry in E. destruct E as (k0 & Hin & Hk0).
  apply SameValueZero_VStr in Hk0. subst k0.
  rewrite Forall_forall in Hall. exact (Hall _ Hin).
Qed.

Lemma store_with_ok (created : Z) (name : string) (sprints : Store) :
  store_ok toISOString sprints -> store_ok toISOString (store_with created name sprints).
Proof.
  intros Hok. unfold store_with.
  destruct (Map_get sprints (VStr name)); [exact Hok|].
  apply store_ok_set; [exact Hok | apply fresh_state_ok].
Qed.

Lemma reachable_store_ok (sprints : Store) :
  reachable toLowerCase sprints -> store_ok toISOString sprints.
Proof.
  induction 1 as [| now name sprints _ IH
                  | created now name items sprints _ IH
                  | created name items sprints _ IH].
  - split; [exists []; split; [reflexivity | constructor] | constructor].
  - rewrite getOrCreateSprintState_run. cbn [snd]. now apply store_with_ok.
  - rewrite updateWorkItems_run. cbn [snd].
    apply store_ok_set; [now apply store_with_ok|].
    destruct (state_before_ok created name sprints IH)
      as (Hn & (ids & Hk & Hnd) & Hv & Hc & Hcv & Ht).
    unfold state_ok; cbn [sprintName workItems classifications lastSyncTime].
    split; [exact Hn|]. split; [|split; [|split; [exact Hc | split; [exact Hcv|]]]].
    + destruct (record_all_keys id WorkItem_value _ ids items Hk Hnd)
        as (ids' & Hk' & Hnd' & _).
      now exists ids'.
    + apply record_all_values; [exact Hv|].
      intros wi _. apply plain_WorkItem_value.
    + now exists now.
  - rewrite storeClassifications_run. cbn [snd].
    apply store_ok_set; [now apply store_with_ok|].
    destruct (state_before_ok created name sprints IH)
      as (Hn & Hw & Hwv & (ids & Hk & Hnd) & Hv & Ht).
    unfold state_ok; cbn [sprintName workItems classifications lastSyncTime].
    split; [exact Hn|]. split; [exact Hw|]. split; [exact Hwv|].
    split; [|split; [|exact Ht]].
    + destruct (record_all_keys workItemId ClassificationResult_value _ ids
                  (classifyWorkItems toLowerCase items) Hk Hnd)
        as (ids' & Hk' & Hnd' & _).
      now exists ids'.
    + apply record_all_values; [exact Hv|].
      intros c Hc. rewrite classifyWorkItems_map in Hc.
      apply in_map_iff in Hc. destruct Hc as (wi & <- & _).
      apply plain_ClassificationResult_value.
Qed.

End ReachableStores.

(** ** What a snapshot keeps of a store *)


Section WrittenValues.

Variable toISOString : Z -> string.












End WrittenValues.


Section SnapshotKept.

Variable text : Type.
Variable JSON_stringify : jsval -> text.
Variable JSON_parse : text -> option jsval.
Variable toISOString : Z -> string.
Variable Date_new : jsval -> completion Date.

Hypothesis Date_new_null : Date_new VNull = Normal (Date_at 0).









End SnapshotKept.


(** ** The claims about export and import *)

Section PersistenceClaims.

Variable text : Type.
Variable JSON_stringify : jsval -> text.
Variable JSON_parse : text -> option jsval.
Variable toISOString : Z -> string.
Variable Date_new : jsval -> completion Date.


(** C9. If the text is no JSON, [importState] throws and the store is as it
    was. If the text is JSON whose value has no array as its [sprints]
    (none at all, or something else), the store is cleared before
    [importState] throws: it is empty afterwards. *)
Theorem importState_failure (json : text) (sprints : Store) :
  (JSON_parse json = None ->
   importState text JSON_parse Date_new json sprints = (Throw SyntaxError, sprints)) /\
  (forall data : jsval,
     JSON_parse json = Some data ->
     (forall elements, member data "sprints" <> Normal (VArr elements)) ->
     importState text JSON_parse Date_new json sprints = (Throw TypeError, [])).
Proof.
  unfold importState, tryCatch, bind, lift, set_this_sprints, throw. split.
  - intros ->. reflexivity.
  - intros data -> Hno.
    destruct (member data "sprints") as [v|e] eqn:E.
    + destruct v; try reflexivity. exfalso. now apply (Hno elements).
    + assert (e = TypeError) as ->; [|reflexivity].
      destruct data; cbn in E; congruence.
Qed.

End PersistenceClaims.

(** ** Examples: a platform, and the claims at concrete inputs *)


Lemma example_store_reachable : reachable toLowerCase_ascii example_store.
Proof.
  unfold example_store.
  apply reachable_storeClassifications, reachable_updateWorkItems, reachable_new.
Qed.




Lemma importState_failure_witness :
  (example_parse None = None /\
   importState _ example_parse example_Date_new None example_store
   = (Throw SyntaxError, example_store)) /\
  (example_parse (Some (VObj [("sprints", VStr "none")]))
   = Some (VObj [("sprints", VStr "none")]) /\
   importState _ example_parse example_Date_new
     (Some (VObj [("sprints", VStr "none")])) example_store
   = (Throw TypeError, [])).
Proof.
  split; (split; [reflexivity|]).
  - apply (proj1 (importState_failure _ example_parse example_Date_new
                    None example_store)).
    reflexivity.
  - apply (proj2 (importState_failure _ example_parse example_Date_new
                    (Some (VObj [("sprints", VStr "none")])) example_store)
             (VObj [("sprints", VStr "none")])).
    + reflexivity.
    + intros elements. cbn. discriminate.
Defined.

Lemma storeClassifications_frame_witness :
  (exists state,
     Map_get (snd (storeClassifications 3000 "Sprint 24"
                     (classifyWorkItems toLowerCase_ascii [wi_cosmetic_other_id])
                     example_store)) (VStr "Sprint 24") = Some state /\
     lastSyncTime state = Date_at 2000 /\
     Map_values (workItems state)
     = [WorkItem_value wi_production_down; WorkItem_value wi_cosmetic]) /\
  (exists state,
     Map_get (snd (updateWorkItems 3000 4000 "Sprint 24" [] example_store))
             (VStr "Sprint 24") = Some state /\
     lastSyncTime state = Date_at 4000).
Proof.
  destruct (storeClassifications_frame 3000 "Sprint 24"
              (classifyWorkItems toLowerCase_ascii [wi_cosmetic_other_id]) example_store)
    as (_ & _ & _ & (state & Hget & Htime & Hitems & _) & _ & Hupdate).
  split.
  - exists state. split; [exact Hget|]. split.
    + rewrite Htime. vm_compute. reflexivity.
    + rewrite Hitems. vm_compute. reflexivity.
  - destruct (Hupdate 3000%Z 4000%Z []) as (_ & state' & Hget' & Htime').
    exists state'. split; assumption.
Defined.

Lemma unknown_sprint_lookups_witness :
  Map_has example_store (VStr "Sprint 25") = false /\
  getWorkItems "Sprint 25" example_store = (Normal [], example_store) /\
  getClassifications "Sprint 25" example_store = (Normal [], example_store) /\
  getSprintStats "Sprint 25" example_store = (Normal None, example_store) /\
  getAllSprints (snd (getWorkItems "Sprint 25" example_store))
  = getAllSprints example_store /\
  getAllSprints (snd (getClassifications "Sprint 25" example_store))
  = getAllSprints example_store /\
  getAllSprints (snd (getSprintStats "Sprint 25" example_store))
  = getAllSprints example_store.
Proof.
  split; [vm_compute; reflexivity|].
  apply (unknown_sprint_lookups "Sprint 25" example_store).
  vm_compute; reflexivity.
Defined.

(** [example_store] holds the items 7 and 8 in "Sprint 24". The new
    version of 8 and the item 9 are recorded, then another version of 9:
    9 maps to the second list's item and not to the first's, 8 to the
    first list's item and not to the one that was held, 7 to the item that
    was held; and there are three items. *)
Lemma updateWorkItems_last_write_wins_witness :
  (Map_keys (workItems (state_before 3000 "Sprint 24" example_store))
   = map VInt [7; 8]%Z /\ NoDup [7; 8]%Z) /\
  exists state,
    Map_get (snd (updateWorkItems 5000 6000 "Sprint 24" [wi_cosmetic_second_pass]
                    (snd (updateWorkItems 3000 4000 "Sprint 24"
                            [wi_cosmetic_header; wi_cosmetic_other_id] example_store))))
            (VStr "Sprint 24") = Some state /\
    Map_get (workItems state) (VInt 9) = Some (WorkItem_value wi_cosmetic_second_pass) /\
    WorkItem_value wi_cosmetic_second_pass <> WorkItem_value wi_cosmetic_other_id /\
    Map_get (workItems state) (VInt 8) = Some (WorkItem_value wi_cosmetic_header) /\
    WorkItem_value wi_cosmetic_header <> WorkItem_value wi_cosmetic /\
    Map_get (workItems state) (VInt 7) = Some (WorkItem_value wi_production_down) /\
    length (Map_values (workItems state)) = 3%nat.
Proof.
  assert (Hnd : NoDup [7; 8]%Z).
  { constructor; [intros [H | []]; discriminate H|].
    constructor; [intros [] | constructor]. }
  split; [split; [vm_compute; reflexivity | exact Hnd]|].
  destruct (updateWorkItems_last_write_wins 3000 4000 5000 6000 "Sprint 24"
              [wi_cosmetic_header; wi_cosmetic_other_id] [wi_cosmetic_second_pass]
              example_store [7; 8]%Z ltac:(vm_compute; reflexivity) Hnd)
    as (state & Hget & HB & HA & Hheld & _ & Hlen & _).
  exists state. split; [exact Hget|].
  split; [|split; [|split; [|split; [|split]]]].
  - destruct (HB 9%Z) as (b & _ & _ & Hlast & Hb); [cbn; auto|].
    vm_compute in Hlast. injection Hlast as <-. exact Hb.
  - vm_compute. discriminate.
  - destruct (HA 8%Z) as (a & _ & _ & Hlast & Ha);
      [cbn; auto | cbn; intros [H | []]; discriminate |].
    vm_compute in Hlast. injection Hlast as <-. exact Ha.
  - vm_compute. discriminate.
  - rewrite (Hheld 7%Z).
    + vm_compute. reflexivity.
    + cbn. intros [H | [H | []]]; discriminate.
    + cbn. intros [H | []]; discriminate.
  - rewrite Hlen. vm_compute. reflexivity.
Defined.

(** The length, when the sprint holds a work item that is in neither
    list: the sprint "Sprint 24" holds the item 7; after the item 8 and then
    the item 9 are recorded, [getWorkItems] returns three items, and the
    two lists have two distinct ids. *)
Lemma updateWorkItems_length_counterexample :
  let sprints := snd (updateWorkItems 1000 2000 "Sprint 24" [wi_production_down] []) in
  let A := [wi_cosmetic] in
  let B := [wi_cosmetic_other_id] in
  let after := snd (updateWorkItems 5000 6000 "Sprint 24" B
                      (snd (updateWorkItems 3000 4000 "Sprint 24" A sprints))) in
  reachable toLowerCase_ascii sprints /\
  fst (getWorkItems "Sprint 24" after)
  = Normal [WorkItem_value wi_production_down; WorkItem_value wi_cosmetic;
            WorkItem_value wi_cosmetic_other_id] /\
  nodup Z.eq_dec (map id (A ++ B)) = [8; 9]%Z /\
  (exists items, fst (getWorkItems "Sprint 24" after) = Normal items /\
                 length items <> length (nodup Z.eq_dec (map id (A ++ B)))).
Proof.
  cbv zeta. split; [apply reachable_updateWorkItems, reachable_new|].
  split; [vm_compute; reflexivity|]. split; [vm_compute; reflexivity|].
  eexists. split; [vm_compute; reflexivity|].
  vm_compute. discriminate.
Qed.

(** The scenarios of the specification. *)
Example scenario_production_down :
  classifyWorkItem toLowerCase_ascii wi_production_down =
  {| workItemId := 7;
     suggestedTags := ["Critical"; "Bug"; "NeedsReview"];
     suggestedPriority := Critical;
     confidence := 0.9;
     reasoning :=
       "Critical priority due to severity keywords. New work item needs review." |}.
Proof. vm_compute. reflexivity. Qed.

Example scenario_nice_to_have :
  classifyWorkItem toLowerCase_ascii
    {| id := 8; title := "Add nice to have UI enhancement"; type := Feature;
       state := "Active"; assignedTo := None; description := None; tags := None;
       priority := None; sprint := None; url := None |} =
  {| workItemId := 8;
     suggestedTags := ["UI"; "Feature"];
     suggestedPriority := Low;
     confidence := 0.8;
     reasoning := "Low priority - non-critical enhancement. UI component identified." |}.
Proof. vm_compute. reflexivity. Qed.

Example scenario_stats :
  fst (getSprintStats "Sprint 24" example_store) =
  Normal (Some {| stats_sprintName := "Sprint 24";
                  totalWorkItems := 2;
                  totalClassifications := 2;
                  stats_lastSyncTime := Date_at 2000;
                  priorityBreakdown :=
                    {| critical := 1; high := 0; medium := 0; low := 1 |} |}).
Proof. vm_compute. reflexivity. Qed.

(* ================================================================== *)
(** * Part V: further properties of the classifier *)
(* ================================================================== *)

(** ** The result as a table of the tests *)

Lemma classifyWorkItem_rules (toLowerCase : string -> string) (w : WorkItem) :
  let l := rulesLocals (tests_of toLowerCase w) (type w) in
  suggestedTags (classifyWorkItem toLowerCase w) = l_suggestedTags l /\
  suggestedPriority (classifyWorkItem toLowerCase w) = l_suggestedPriority l /\
  reasoning (classifyWorkItem toLowerCase w) = finalReasoning l.
Proof. repeat split; reflexivity. Qed.

Lemma all_bool_In (b : bool) : In b all_bool.
Proof. destruct b; simpl; auto. Qed.

Lemma all_Tests_In (t : Tests) : In t all_Tests.
Proof.
  destruct t as [a b c d e f g h i j k]. unfold all_Tests.
  repeat (apply in_flat_map; eexists; split; [apply all_bool_In|]).
  apply in_map_iff. eexists; split; [reflexivity | apply all_bool_In].
Qed.

Lemma all_WorkItemType_In (t : WorkItemType) : In t all_WorkItemType.
Proof. destruct t; simpl; auto 6. Qed.

(** A property of the locals that holds in every row of the table holds of
    every work item. *)
Lemma rules_table (check : Tests -> WorkItemType -> bool) :
  forallb (fun t => forallb (check t) all_WorkItemType) all_Tests = true ->
  forall t type, check t type = true.
Proof.
  intros H t type. rewrite forallb_forall in H.
  specialize (H t (all_Tests_In t)). rewrite forallb_forall in H.
  apply H, all_WorkItemType_In.
Qed.

Lemma has_tag_In (tag : string) (tags : list string) :
  has_tag tag tags = true <-> In tag tags.
Proof.
  unfold has_tag. rewrite existsb_exists. split.
  - intros (x & Hin & Heq). apply String.eqb_eq in Heq. now subst x.
  - intros Hin. exists tag. split; [exact Hin | apply String.eqb_refl].
Qed.

Lemma distinct_NoDup (l : list string) : distinct l = true -> NoDup l.
Proof.
  induction l as [|x l IH]; cbn [distinct]; intros H; constructor.
  - apply andb_true_iff in H. destruct H as [H _].
    apply negb_true_iff in H. intros Hin.
    apply has_tag_In in Hin. unfold has_tag in Hin. congruence.
  - apply IH. apply andb_true_iff in H. tauto.
Qed.

Lemma subsequence_In (l m : list string) (x : string) :
  subsequence l m = true -> In x l -> In x m.
Proof.
  revert l. induction m as [|y m IH]; intros l H Hin.
  - destruct l; [destruct Hin | discriminate H].
  - destruct l as [|a l]; [destruct Hin|]. cbn [subsequence] in H.
    destruct (String.eqb a y) eqn:E.
    + apply String.eqb_eq in E. subst a.
      destruct Hin as [-> | Hin]; [now left | right; exact (IH l H Hin)].
    + right. exact (IH (a :: l) H Hin).
Qed.

(** Which tags the locals hold, test by test. *)
Lemma has_tag_table (t : Tests) (ty : WorkItemType) :
  let tags := l_suggestedTags (rulesLocals t ty) in
  has_tag "Critical" tags = t_critical t /\
  has_tag "HighPriority" tags = negb (t_critical t) && t_high t /\
  has_tag "UI" tags = t_ui t /\
  has_tag "Backend" tags = t_backend t /\
  has_tag "Database" tags = t_database t /\
  has_tag "Performance" tags = t_performance t /\
  has_tag "Security" tags = t_security t /\
  has_tag "Testing" tags = t_testing t /\
  has_tag "Documentation" tags = t_documentation t /\
  has_tag "Bug" tags = WorkItemType_eqb ty Bug /\
  has_tag "Feature" tags = WorkItemType_eqb ty Feature /\
  has_tag "Epic" tags = WorkItemType_eqb ty Epic /\
  has_tag "NeedsReview" tags = t_new t.
Proof.
  intros tags. subst tags.
  pose proof (rules_table
    (fun t ty =>
       let tags := l_suggestedTags (rulesLocals t ty) in
       Bool.eqb (has_tag "Critical" tags) (t_critical t)
       && Bool.eqb (has_tag "HighPriority" tags) (negb (t_critical t) && t_high t)
       && Bool.eqb (has_tag "UI" tags) (t_ui t)
       && Bool.eqb (has_tag "Backend" tags) (t_backend t)
       && Bool.eqb (has_tag "Database" tags) (t_database t)
       && Bool.eqb (has_tag "Performance" tags) (t_performance t)
       && Bool.eqb (has_tag "Security" tags) (t_security t)
       && Bool.eqb (has_tag "Testing" tags) (t_testing t)
       && Bool.eqb (has_tag "Documentation" tags) (t_documentation t)
       && Bool.eqb (has_tag "Bug" tags) (WorkItemType_eqb ty Bug)
       && Bool.eqb (has_tag "Feature" tags) (WorkItemType_eqb ty Feature)
       && Bool.eqb (has_tag "Epic" tags) (WorkItemType_eqb ty Epic)
       && Bool.eqb (has_tag "NeedsReview" tags) (t_new t))
    ltac:(vm_compute; reflexivity) t ty) as H.
  cbv zeta in H. rewrite !andb_true_iff in H.
  repeat match type of H with _ /\ _ => destruct H as [H ?] end.
  repeat split; now apply Bool.eqb_prop.
Qed.

(** The tags, the priority and the reasoning of the locals, together. *)
Lemma rulesLocals_table (t : Tests) (ty : WorkItemType) :
  let l := rulesLocals t ty in
  subsequence (l_suggestedTags l) rule_tags = true /\
  distinct (l_suggestedTags l) = true /\
  String.eqb (finalReasoning l) "" = false /\
  String.eqb (trim (finalReasoning l)) (finalReasoning l) = true /\
  String.eqb (finalReasoning l) "Standard classification applied." =
    (match l_suggestedPriority l with Medium => true | _ => false end)
    && forallb (fun tag => has_tag tag type_tags) (l_suggestedTags l).
Proof.
  intros l. subst l.
  pose proof (rules_table
    (fun t ty =>
       let l := rulesLocals t ty in
       subsequence (l_suggestedTags l) rule_tags
       && distinct (l_suggestedTags l)
       && negb (String.eqb (finalReasoning l) "")
       && String.eqb (trim (finalReasoning l)) (finalReasoning l)
       && Bool.eqb (String.eqb (finalReasoning l) "Standard classification applied.")
            ((match l_suggestedPriority l with Medium => true | _ => false end)
             && forallb (fun tag => has_tag tag type_tags) (l_suggestedTags l)))
    ltac:(vm_compute; reflexivity) t ty) as H.
  cbv zeta in H. rewrite !andb_true_iff in H.
  destruct H as ((((H1 & H2) & H3) & H4) & H5).
  repeat split; auto.
  - now apply negb_true_iff.
  - now apply Bool.eqb_prop.
Qed.

Lemma Priority_numeral_inj (p q : Priority) :
  Priority_numeral p = Priority_numeral q -> p = q.
Proof. destruct p, q; cbn; intros H; congruence. Qed.

(** The priority of the locals is that of the first tier whose test holds. *)
Lemma rulesLocals_priority (t : Tests) (ty : WorkItemType) :
  l_suggestedPriority (rulesLocals t ty) =
    if t_critical t then Critical
    else if t_high t then High
    else if t_low t then Low
    else Medium.
Proof.
  apply Priority_numeral_inj. apply Z.eqb_eq.
  exact (rules_table
    (fun t ty =>
       Z.eqb (Priority_numeral (l_suggestedPriority (rulesLocals t ty)))
             (Priority_numeral (if t_critical t then Critical
                                else if t_high t then High
                                else if t_low t then Low
                                else Medium)))
    ltac:(vm_compute; reflexivity) t ty).
Qed.

(** ** Substrings of keywords *)

Lemma startsWith_trans (s p q : string) :
  startsWith s p = true -> startsWith p q = true -> startsWith s q = true.
Proof.
  revert s p. induction q as [|c q IH]; intros s p Hsp Hpq.
  - destruct s; reflexivity.
  - destruct p as [|b p]; [discriminate Hpq|].
    destruct s as [|a s]; [discriminate Hsp|].
    cbn [startsWith] in *.
    apply andb_true_iff in Hsp. destruct Hsp as [Hba Hsp].
    apply andb_true_iff in Hpq. destruct Hpq as [Hcb Hpq].
    apply Ascii.eqb_eq in Hba. apply Ascii.eqb_eq in Hcb. subst.
    rewrite Ascii.eqb_refl. cbn [andb]. exact (IH s p Hsp Hpq).
Qed.

(** A text that includes a keyword includes every prefix of the keyword. *)
Lemma includes_prefix (s p q : string) :
  startsWith p q = true -> includes s p = true -> includes s q = true.
Proof.
  intros Hpq. induction s as [|a s IH]; cbn [includes]; intros H.
  - rewrite orb_false_r in *. exact (startsWith_trans _ _ _ H Hpq).
  - apply orb_true_iff in H. apply orb_true_iff. destruct H as [H | H].
    + left. exact (startsWith_trans _ _ _ H Hpq).
    + right. exact (IH H).
Qed.

Lemma orb_absorb_implied (a b : bool) : (a = true -> b = true) -> a || b = b.
Proof. destruct a, b; intros H; try reflexivity. discriminate (H eq_refl). Qed.

(** ** Lowercasing of ASCII *)

Lemma toLowerCase_ascii_char_idempotent (c : ascii) :
  toLowerCase_ascii_char (toLowerCase_ascii_char c) = toLowerCase_ascii_char c.
Proof. destruct c as [[] [] [] [] [] [] [] []]; vm_compute; reflexivity. Qed.

Lemma toLowerCase_ascii_idempotent (s : string) :
  toLowerCase_ascii (toLowerCase_ascii s) = toLowerCase_ascii s.
Proof.
  induction s as [|c s IH]; [reflexivity|].
  cbn [toLowerCase_ascii]. now rewrite toLowerCase_ascii_char_idempotent, IH.
Qed.

(** ** Properties of the classifier *)

Section ClassifierRules.

Variable toLowerCase : string -> string.

(** X1. The suggested tags come in the order of the rules: they are the
    list "Critical", "HighPriority", "UI", "Backend", "Database",
    "Performance", "Security", "Testing", "Documentation", "Bug", "Feature",
    "Epic", "NeedsReview" with some tags left out. So no tag occurs twice,
    and no other tag is ever suggested. *)
Theorem suggestedTags_in_rule_order (w : WorkItem) :
  let r := classifyWorkItem toLowerCase w in
  subsequence (suggestedTags r) rule_tags = true /\
  NoDup (suggestedTags r) /\
  (forall tag, In tag (suggestedTags r) -> In tag rule_tags).
Proof.
  intros r. subst r.
  destruct (classifyWorkItem_rules toLowerCase w) as (Ht & _ & _). rewrite Ht.
  destruct (rulesLocals_table (tests_of toLowerCase w) (type w)) as (Hs & Hd & _).
  split; [exact Hs|]. split; [now apply distinct_NoDup|].
  intros tag. now apply subsequence_In.
Qed.

(** X2. A tag of a technical area is suggested exactly when one of the
    keywords of the area occurs in the haystack, and "NeedsReview" exactly
    when the lowercased state is "new"; the priority tier has no influence
    on them. *)
Theorem area_and_state_tags (w : WorkItem) :
  let text := haystack toLowerCase w in
  let tags := suggestedTags (classifyWorkItem toLowerCase w) in
  (In "UI"%string tags <-> uiKeywords text = true) /\
  (In "Backend"%string tags <-> backendKeywords text = true) /\
  (In "Database"%string tags <-> databaseKeywords text = true) /\
  (In "Performance"%string tags <-> performanceKeywords text = true) /\
  (In "Security"%string tags <-> securityKeywords text = true) /\
  (In "Testing"%string tags <-> testingKeywords text = true) /\
  (In "Documentation"%string tags <-> documentationKeywords text = true) /\
  (In "NeedsReview"%string tags <-> toLowerCase (state w) = "new"%string).
Proof.
  intros text tags. subst text tags.
  destruct (classifyWorkItem_rules toLowerCase w) as (Ht & _ & _). rewrite Ht.
  destruct (has_tag_table (tests_of toLowerCase w) (type w))
    as (_ & _ & H1 & H2 & H3 & H4 & H5 & H6 & H7 & _ & _ & _ & H8).
  cbn [tests_of t_ui t_backend t_database t_performance t_security t_testing
       t_documentation t_new] in *.
  rewrite <- !has_tag_In, H1, H2, H3, H4, H5, H6, H7, H8, String.eqb_eq.
  repeat split; auto.
Qed.

(** X3. The tag of the type: a Bug gets "Bug", a Feature "Feature", an Epic
    "Epic", whatever its text; a Task and a User Story get none of the
    three, and no work item gets the tag of another type. *)
Theorem type_tag (w : WorkItem) :
  let tags := suggestedTags (classifyWorkItem toLowerCase w) in
  (In "Bug"%string tags <-> type w = Bug) /\
  (In "Feature"%string tags <-> type w = Feature) /\
  (In "Epic"%string tags <-> type w = Epic) /\
  (type w = Task \/ type w = UserStory ->
   forall tag, In tag tags -> ~ In tag type_tags).
Proof.
  intros tags. subst tags.
  destruct (classifyWorkItem_rules toLowerCase w) as (Ht & _ & _). rewrite Ht.
  destruct (has_tag_table (tests_of toLowerCase w) (type w))
    as (_ & _ & _ & _ & _ & _ & _ & _ & _ & Hb & Hf & He & _).
  cbv zeta in Hb, Hf, He.
  rewrite <- !has_tag_In, Hb, Hf, He, !WorkItemType_eqb_eq.
  repeat split; auto.
  intros Hty tag Hin Htag. cbn [type_tags In] in Htag.
  apply has_tag_In in Hin.
  destruct Htag as [<- | [<- | [<- | []]]];
    [rewrite Hb in Hin | rewrite Hf in Hin | rewrite He in Hin];
    apply WorkItemType_eqb_eq in Hin; destruct Hty; congruence.
Qed.

(** X4. The reasoning is never empty and has no white space at either end.
    It is the fallback "Standard classification applied." exactly when no
    rule with a fragment fired, that is when the priority is Medium and the
    only tag, if any, is the tag of the type. *)
Theorem reasoning_fallback (w : WorkItem) :
  let r := classifyWorkItem toLowerCase w in
  reasoning r <> ""%string /\
  trim (reasoning r) = reasoning r /\
  (reasoning r = "Standard classification applied."%string <->
   suggestedPriority r = Medium /\
   forall tag, In tag (suggestedTags r) -> In tag type_tags).
Proof.
  intros r. subst r.
  destruct (classifyWorkItem_rules toLowerCase w) as (Ht & Hp & Hr).
  rewrite Ht, Hp, Hr.
  destruct (rulesLocals_table (tests_of toLowerCase w) (type w))
    as (_ & _ & Hne & Htrim & Hfb).
  cbv zeta in Hne, Htrim, Hfb.
  split; [now apply String.eqb_neq|]. split; [now apply String.eqb_eq|].
  rewrite <- String.eqb_eq, Hfb, andb_true_iff, forallb_forall.
  split; intros [H1 H2]; split.
  - destruct (l_suggestedPriority _); congruence.
  - intros tag Hin. apply has_tag_In. now apply H2.
  - now rewrite H1.
  - intros tag Hin. apply has_tag_In. now apply H2.
Qed.

(** X5. Keywords that overlap. A text with "data loss" is both Critical and
    tagged "Database" (it contains "data"); a text with "security" is both
    Critical and tagged "Security". The keyword "database" adds nothing to
    "data", and "testing" nothing to "test": the Database and Testing rules
    fire exactly as they would without them. *)
Theorem keyword_overlap (w : WorkItem) :
  let text := haystack toLowerCase w in
  let r := classifyWorkItem toLowerCase w in
  (includes text "data loss" = true ->
   suggestedPriority r = Critical /\
   In "Critical"%string (suggestedTags r) /\ In "Database"%string (suggestedTags r)) /\
  (includes text "security" = true ->
   suggestedPriority r = Critical /\
   In "Critical"%string (suggestedTags r) /\ In "Security"%string (suggestedTags r)) /\
  databaseKeywords text = includes text "sql" || includes text "data" /\
  testingKeywords text = includes text "test" || includes text "qa".
Proof.
  intros text r. subst r.
  destruct (classifyWorkItem_rules toLowerCase w) as (Ht & Hp & _).
  rewrite Ht, Hp.
  destruct (has_tag_table (tests_of toLowerCase w) (type w))
    as (Hc & _ & _ & _ & Hdb & _ & Hsec & _).
  cbn [tests_of t_critical t_database t_security] in Hc, Hdb, Hsec. fold text in Hc, Hdb, Hsec.
  assert (Hprio : criticalKeywords text (type w) = true ->
                  l_suggestedPriority (rulesLocals (tests_of toLowerCase w) (type w))
                  = Critical).
  { intros H. rewrite rulesLocals_priority. cbn [tests_of t_critical]. fold text.
    now rewrite H. }
  split; [|split; [|split]].
  - intros H.
    assert (Hcrit : criticalKeywords text (type w) = true).
    { unfold criticalKeywords. rewrite H. now rewrite !orb_true_r. }
    assert (Hdata : databaseKeywords text = true).
    { unfold databaseKeywords.
      rewrite (includes_prefix text "data loss" "data" eq_refl H).
      now rewrite !orb_true_r. }
    split; [now apply Hprio|].
    rewrite <- !has_tag_In, Hc, Hdb. auto.
  - intros H.
    assert (Hcrit : criticalKeywords text (type w) = true).
    { unfold criticalKeywords. rewrite H. now rewrite !orb_true_r. }
    assert (Hs : securityKeywords text = true).
    { unfold securityKeywords. now rewrite H. }
    split; [now apply Hprio|].
    rewrite <- !has_tag_In, Hc, Hsec. auto.
  - unfold databaseKeywords. rewrite <- orb_assoc.
    apply orb_absorb_implied. intros H.
    rewrite (includes_prefix text "database" "data" eq_refl H).
    now rewrite orb_true_r.
  - unfold testingKeywords.
    rewrite (orb_comm (includes text "test") (includes text "testing")).
    rewrite (orb_absorb_implied (includes text "testing") (includes text "test"));
      [reflexivity|].
    exact (includes_prefix text "testing" "test" eq_refl).
Qed.

(** X6. Matching ignores case: when lowercasing a lowercased string changes
    nothing, a work item and the same work item with its title, description
    and state lowercased get the same result. *)
Theorem classifyWorkItem_case_insensitive (w : WorkItem) :
  (forall s, toLowerCase (toLowerCase s) = toLowerCase s) ->
  classifyWorkItem toLowerCase (lowercased toLowerCase w)
  = classifyWorkItem toLowerCase w.
Proof.
  intros Hidem. destruct w as [i t ty s a d g p sp u].
  unfold classifyWorkItem, haystack, lowercased.
  cbn [title description type state id option_map].
  destruct d as [d|]; cbn [option_map]; now rewrite !Hidem.
Qed.

(** X7. [classifyWorkItems] returns one result per work item, in the order
    of the work items: the result at an index is the classification of the
    work item at that index and carries its id; the results of a longer
    batch begin with the results of the shorter one. *)
Theorem classifyWorkItems_parallel (items : list WorkItem) :
  let results := classifyWorkItems toLowerCase items in
  length results = length items /\
  map workItemId results = map id items /\
  (forall n, nth_error results n
             = option_map (classifyWorkItem toLowerCase) (nth_error items n)) /\
  (forall more, classifyWorkItems toLowerCase (items ++ more)
                = results ++ classifyWorkItems toLowerCase more).
Proof.
  intros results. subst results. rewrite classifyWorkItems_map.
  split; [apply length_map|]. split; [|split].
  - rewrite map_map. apply map_ext. reflexivity.
  - intros n. apply nth_error_map.
  - intros more. now rewrite !classifyWorkItems_map, map_app.
Qed.

End ClassifierRules.

Lemma keyword_overlap_witness :
  includes (haystack toLowerCase_ascii wi_data_loss) "data loss" = true /\
  suggestedPriority (classifyWorkItem toLowerCase_ascii wi_data_loss) = Critical /\
  In "Critical"%string (suggestedTags (classifyWorkItem toLowerCase_ascii wi_data_loss)) /\
  In "Database"%string (suggestedTags (classifyWorkItem toLowerCase_ascii wi_data_loss)).
Proof.
  split; [vm_compute; reflexivity|].
  apply (proj1 (keyword_overlap toLowerCase_ascii wi_data_loss)).
  vm_compute; reflexivity.
Defined.

Lemma classifyWorkItem_case_insensitive_witness :
  classifyWorkItem toLowerCase_ascii (lowercased toLowerCase_ascii wi_security)
  = classifyWorkItem toLowerCase_ascii wi_security.
Proof.
  apply (classifyWorkItem_case_insensitive toLowerCase_ascii wi_security).
  exact toLowerCase_ascii_idempotent.
Defined.

Lemma type_tag_witness :
  type wi_cosmetic = Task /\
  forall tag,
    In tag (suggestedTags (classifyWorkItem toLowerCase_ascii wi_cosmetic)) ->
    ~ In tag type_tags.
Proof.
  split; [reflexivity|].
  apply (proj2 (proj2 (proj2 (type_tag toLowerCase_ascii wi_cosmetic)))).
  left. reflexivity.
Defined.

(* ================================================================== *)
(** * Part VI: further properties of the store *)
(* ================================================================== *)

(** ** Maps, whatever their keys *)

Lemma Map_set_keys {V : Type} (m : JSMap V) (key : jsval) (v : V) :
  Map_keys (Map_set m key v) =
    if Map_has m key then Map_keys m else Map_keys m ++ [Map_key key].
Proof.
  unfold Map_has, Map_keys.
  induction m as [|[k0 v0] m IH]; cbn [Map_set Map_get map fst app]; [reflexivity|].
  destruct (SameValueZero k0 key); cbn [map fst]; [reflexivity|].
  rewrite IH. destruct (Map_get m key); reflexivity.
Qed.

Lemma Map_set_new {V : Type} (m : JSMap V) (key : jsval) (v : V) :
  Map_get m key = None -> Map_set m key v = m ++ [(Map_key key, v)].
Proof.
  induction m as [|[k0 v0] m IH]; cbn [Map_set Map_get app]; [reflexivity|].
  destruct (SameValueZero k0 key); [discriminate|].
  intros H. now rewrite IH.
Qed.

(** Setting a key to the value that it has changes nothing. *)
Lemma Map_set_same_value {V : Type} (m : JSMap V) (key : jsval) (v : V) :
  Map_get m key = Some v -> Map_set m key v = m.
Proof.
  induction m as [|[k0 v0] m IH]; cbn [Map_set Map_get]; [discriminate|].
  destruct (SameValueZero k0 key).
  - intros H. injection H as ->. reflexivity.
  - intros H. now rewrite IH.
Qed.

Lemma Map_set_size {V : Type} (m : JSMap V) (key : jsval) (v : V) :
  (Map_size m <= Map_size (Map_set m key v))%nat.
Proof.
  unfold Map_size. induction m as [|[k0 v0] m IH]; cbn [Map_set length]; [lia|].
  destruct (SameValueZero k0 key); cbn [length]; lia.
Qed.

Lemma record_all_size_le {X : Type} (key : X -> Z) (val : X -> jsval)
  (m : JSMap jsval) (xs : list X) :
  (Map_size m <= Map_size (record_all key val m xs))%nat.
Proof.
  induction xs as [|x xs IH] using rev_ind; [simpl; lia|].
  rewrite record_all_snoc.
  pose proof (Map_set_size (record_all key val m xs) (VInt (key x)) (val x)). lia.
Qed.

Lemma integer_keys_no_float {V : Type} (m : JSMap V) (ids : list Z) :
  Map_keys m = map VInt ids -> Forall no_float (Map_keys m).
Proof.
  intros ->. apply Forall_forall. intros k Hk.
  apply in_map_iff in Hk. destruct Hk as (i & <- & _). exact I.
Qed.

(** ** The state of a sprint, before and after a method creates it *)

Lemma Map_get_store_with (created : Z) (name : string) (sprints : Store) :
  Map_get (store_with created name sprints) (VStr name)
  = Some (state_before created name sprints).
Proof.
  unfold store_with, state_before.
  destruct (Map_get sprints (VStr name)) eqn:E; [exact E | apply sprints_get_set_same].
Qed.

Lemma Map_keys_store_with (created : Z) (name : string) (sprints : Store) :
  Map_keys (store_with created name sprints) =
    if Map_has sprints (VStr name) then Map_keys sprints
    else Map_keys sprints ++ [VStr name].
Proof.
  unfold store_with, Map_has.
  destruct (Map_get sprints (VStr name)) eqn:E; [reflexivity|].
  rewrite Map_set_keys. unfold Map_has. now rewrite E.
Qed.

(** Setting the state of a sprint that is there keeps the names. *)
Lemma Map_keys_set_store_with (created : Z) (name : string) (sprints : Store)
  (state : SprintState) :
  Map_keys (Map_set (store_with created name sprints) (VStr name) state) =
    if Map_has sprints (VStr name) then Map_keys sprints
    else Map_keys sprints ++ [VStr name].
Proof.
  rewrite Map_set_keys. unfold Map_has at 1. rewrite Map_get_store_with.
  apply Map_keys_store_with.
Qed.

(** ** A property of every state of the store *)

Section StoreAll.

Variable P : SprintState -> Prop.

Lemma store_all_set (sprints : Store) (key : jsval) (state : SprintState) :
  store_all P sprints -> P state -> store_all P (Map_set sprints key state).
Proof.
  intros Hall Hs. unfold store_all. apply Map_set_entries; auto.
Qed.

Lemma store_all_get (sprints : Store) (key : jsval) (state : SprintState) :
  store_all P sprints -> Map_get sprints key = Some state -> P state.
Proof.
  intros Hall Hget. apply Map_get_entry in Hget. destruct Hget as (k0 & Hin & _).
  unfold store_all in Hall. rewrite Forall_forall in Hall. exact (Hall _ Hin).
Qed.

Hypothesis P_fresh : forall created name, P (fresh_state created name).

Lemma store_all_before (created : Z) (name : string) (sprints : Store) :
  store_all P sprints -> P (state_before created name sprints).
Proof.
  intros Hall. unfold state_before.
  destruct (Map_get sprints (VStr name)) as [state|] eqn:E; [|apply P_fresh].
  exact (store_all_get _ _ _ Hall E).
Qed.

Lemma store_all_with (created : Z) (name : string) (sprints : Store) :
  store_all P sprints -> store_all P (store_with created name sprints).
Proof.
  intros Hall. unfold store_with.
  destruct (Map_get sprints (VStr name)); [exact Hall|].
  apply store_all_set; [exact Hall | apply P_fresh].
Qed.

End StoreAll.

Lemma typed_results_fresh (created : Z) (name : string) :
  typed_results (fresh_state created name).
Proof. constructor. Qed.

(** The stores that the agent builds hold classifications of the type. *)
Lemma reachable_typed (toLowerCase : string -> string) (sprints : Store) :
  reachable toLowerCase sprints -> store_all typed_results sprints.
Proof.
  induction 1 as [| now name sprints _ IH
                  | created now name items sprints _ IH
                  | created name items sprints _ IH].
  - constructor.
  - rewrite getOrCreateSprintState_run. cbn [snd].
    apply store_all_with; [apply typed_results_fresh | exact IH].
  - rewrite updateWorkItems_run. cbn [snd].
    apply store_all_set; [apply store_all_with; [apply typed_results_fresh | exact IH]|].
    exact (store_all_before _ typed_results_fresh created name sprints IH).
  - rewrite storeClassifications_run. cbn [snd].
    apply store_all_set; [apply store_all_with; [apply typed_results_fresh | exact IH]|].
    unfold typed_results. cbn [classifications].
    apply record_all_values.
    + exact (store_all_before _ typed_results_fresh created name sprints IH).
    + intros c _. now exists c.
Qed.

(** ** Counting priorities *)

Lemma count_priority_typed (numeral : Z) (cs : list ClassificationResult) :
  count_priority numeral (map ClassificationResult_value cs)
  = Normal (count_suggestedPriority numeral cs).
Proof.
  unfold count_suggestedPriority.
  induction cs as [|c cs IH]; [reflexivity|].
  cbn [map count_priority]. rewrite IH.
  cbn [ClassificationResult_value member find fst snd String.eqb Ascii.eqb Bool.eqb
       strictEquals Number_equal filter].
  destruct (Z.eqb (Priority_numeral (suggestedPriority c)) numeral); reflexivity.
Qed.

Lemma count_suggestedPriority_total (cs : list ClassificationResult) :
  (count_suggestedPriority 1 cs + count_suggestedPriority 2 cs
   + count_suggestedPriority 3 cs + count_suggestedPriority 4 cs)%nat = length cs.
Proof.
  unfold count_suggestedPriority.
  induction cs as [|c cs IH]; [reflexivity|].
  cbn [filter length]. destruct (suggestedPriority c); cbn; lia.
Qed.

Lemma typed_values (l : list jsval) :
  Forall (fun v => exists c, v = ClassificationResult_value c) l ->
  exists cs, l = map ClassificationResult_value cs.
Proof.
  induction 1 as [|v l [c ->] _ [cs ->]]; [now exists [] | now exists (c :: cs)].
Qed.

Lemma getSprintStats_typed (name : string) (sprints : Store) (state : SprintState)
  (cs : list ClassificationResult) :
  Map_get sprints (VStr name) = Some state ->
  Map_values (classifications state) = map ClassificationResult_value cs ->
  getSprintStats name sprints =
  (Normal (Some {| stats_sprintName := name;
                   totalWorkItems := Map_size (workItems state);
                   totalClassifications := Map_size (classifications state);
                   stats_lastSyncTime := lastSyncTime state;
                   priorityBreakdown :=
                     {| critical := count_suggestedPriority 1 cs;
                        high := count_suggestedPriority 2 cs;
                        medium := count_suggestedPriority 3 cs;
                        low := count_suggestedPriority 4 cs |} |}),
   sprints).
Proof.
  intros Hget Hvals. unfold getSprintStats, bind, this_sprints, lift, ret.
  rewrite Hget, Hvals, !count_priority_typed. reflexivity.
Qed.

Lemma count_priority_throw (numeral : Z) (l : list jsval) :
  In VNull l \/ In VUndefined l -> count_priority numeral l = Throw TypeError.
Proof.
  induction l as [|c l IH]; [intros [[] | []]|].
  intros H. cbn [count_priority].
  assert (Hc : member c "suggestedPriority" = Throw TypeError \/
               (exists p, member c "suggestedPriority" = Normal p) /\
               (In VNull l \/ In VUndefined l)).
  { destruct c; cbn [member];
      try (left; reflexivity);
      right; (split; [eexists; reflexivity|]);
      destruct H as [[H | H] | [H | H]]; try discriminate H; auto. }
  destruct Hc as [-> | [[p ->] Hl]]; [reflexivity|].
  now rewrite (IH Hl).
Qed.

Lemma last_with_map {X Y : Type} (key : X -> Z) (key' : Y -> Z) (f : X -> Y)
  (i : Z) (xs : list X) :
  (forall x, key' (f x) = key x) ->
  last_with key' i (map f xs) = option_map f (last_with key i xs).
Proof.
  intros Hk. unfold last_with. rewrite <- map_rev.
  induction (rev xs) as [|x l IH]; cbn [map find]; [reflexivity|].
  rewrite Hk. destruct (Z.eqb (key x) i); [reflexivity | exact IH].
Qed.

Lemma NoDup_map_injective {X : Type} (key : X -> Z) (xs : list X) (x y : X) :
  NoDup (map key xs) -> In x xs -> In y xs -> key x = key y -> x = y.
Proof.
  induction xs as [|a xs IH]; cbn [map]; intros Hnd Hx Hy Hk; [destruct Hx|].
  inversion Hnd as [|? ? Hnin Hnd']; subst.
  destruct Hx as [-> | Hx], Hy as [-> | Hy]; auto.
  - exfalso. apply Hnin. rewrite Hk. now apply in_map.
  - exfalso. apply Hnin. rewrite <- Hk. now apply in_map.
Qed.

(** Recording items with distinct keys in an empty map lists them in
    their order. *)
Lemma record_all_distinct {X : Type} (key : X -> Z) (val : X -> jsval) (xs : list X) :
  NoDup (map key xs) ->
  record_all key val [] xs = map (fun x => (VInt (key x), val x)) xs.
Proof.
  induction xs as [|x xs IH] using rev_ind; intros Hnd; [reflexivity|].
  rewrite map_app in Hnd. apply NoDup_remove in Hnd. rewrite app_nil_r in Hnd.
  destruct Hnd as [Hnd Hnin].
  rewrite record_all_snoc, (IH Hnd), map_app. cbn [map].
  apply (Map_set_absent VInt no_float) with (ks := map key xs);
    auto using VInt_no_float, SameValueZero_VInt, VInt_inj.
  unfold Map_keys. rewrite !map_map. reflexivity.
Qed.

(** Recording items that the map holds as they are changes nothing. *)
Lemma record_all_held {X : Type} (key : X -> Z) (val : X -> jsval)
  (m : JSMap jsval) (xs : list X) :
  (forall x, In x xs -> Map_get m (VInt (key x)) = Some (val x)) ->
  record_all key val m xs = m.
Proof.
  intros H. induction xs as [|x xs IH] using rev_ind; [reflexivity|].
  rewrite record_all_snoc, IH.
  - apply Map_set_same_value. apply H. apply in_or_app; right; now left.
  - intros y Hy. apply H. apply in_or_app; now left.
Qed.

(** ** Properties of the methods of the store *)

(** X8. [getOrCreateSprintState] never throws and returns the state that
    the store holds under the name afterwards. A sprint that is there is
    returned as it is, its [lastSyncTime] included, and the store stays as
    it is; a sprint that is not there is created empty, with the time of the
    call, and is put after the sprints that are there. A second call
    returns the same state and changes nothing, and no other sprint is
    touched. *)
Theorem getOrCreateSprintState_idempotent (now now' : Z) (name : string)
  (sprints : Store) :
  exists state sprints',
    getOrCreateSprintState now name sprints = (Normal state, sprints') /\
    Map_get sprints' (VStr name) = Some state /\
    getOrCreateSprintState now' name sprints' = (Normal state, sprints') /\
    (forall old, Map_get sprints (VStr name) = Some old ->
       state = old /\ sprints' = sprints) /\
    (Map_get sprints (VStr name) = None ->
       state = {| sprintName := VStr name; workItems := [];
                  lastSyncTime := Date_at now; classifications := [] |} /\
       sprints' = sprints ++ [(VStr name, state)]) /\
    (forall other, other <> name ->
       Map_get sprints' (VStr other) = Map_get sprints (VStr other)).
Proof.
  exists (state_before now name sprints), (store_with now name sprints).
  split; [apply getOrCreateSprintState_run|].
  split; [apply Map_get_store_with|].
  split; [|split; [|split]].
  - rewrite getOrCreateSprintState_run. f_equal.
    + f_equal. unfold state_before at 1. now rewrite Map_get_store_with.
    + unfold store_with at 1. now rewrite Map_get_store_with.
  - intros old H. unfold state_before, store_with. now rewrite H.
  - intros H. unfold state_before, store_with. rewrite H.
    split; [reflexivity|]. now apply Map_set_new.
  - intros other Hne. now apply store_with_other.
Qed.

(** X9. [getAllSprints] lists the sprint names in the order in which the
    sprints were created: [getOrCreateSprintState], [updateWorkItems] and
    [storeClassifications] keep the names and their order when the sprint is
    there, and put its name last when it is not. [getAllSprints] itself
    changes nothing. *)
Theorem getAllSprints_creation_order (created now : Z) (name : string)
  (items : list WorkItem) (results : list ClassificationResult) (sprints : Store) :
  let names := Map_keys sprints in
  let names' := if Map_has sprints (VStr name) then names else names ++ [VStr name] in
  getAllSprints sprints = (Normal names, sprints) /\
  fst (getAllSprints (snd (getOrCreateSprintState created name sprints)))
    = Normal names' /\
  fst (getAllSprints (snd (updateWorkItems created now name items sprints)))
    = Normal names' /\
  fst (getAllSprints (snd (storeClassifications created name results sprints)))
    = Normal names'.
Proof.
  intros names names'. subst names names'.
  rewrite getOrCreateSprintState_run, updateWorkItems_run, storeClassifications_run.
  unfold getAllSprints, bind, this_sprints, ret. cbn [fst snd].
  rewrite !Map_keys_set_store_with, Map_keys_store_with.
  repeat split; reflexivity.
Qed.

(** X10. [updateWorkItems] merges: every id of the new items maps to the
    last item with that id, every other id keeps the item that it had, so
    that no work item is ever removed and the number of work items does not
    go down. The classifications of the sprint stay as they are, also those
    of work items that are not in the new list; the other sprints are not
    touched. *)
Theorem updateWorkItems_merges (created now : Z) (name : string)
  (items : list WorkItem) (sprints : Store) :
  let before := state_before created name sprints in
  let after := snd (updateWorkItems created now name items sprints) in
  Forall no_float (Map_keys (workItems before)) ->
  exists state,
    Map_get after (VStr name) = Some state /\
    (forall i : Z,
       Map_get (workItems state) (VInt i) =
         match last_with id i items with
         | Some wi => Some (WorkItem_value wi)
         | None => Map_get (workItems before) (VInt i)
         end) /\
    (Map_size (workItems before) <= Map_size (workItems state))%nat /\
    classifications state = classifications before /\
    sprintName state = sprintName before /\
    lastSyncTime state = Date_at now /\
    (forall other, other <> name ->
       Map_get after (VStr other) = Map_get sprints (VStr other)).
Proof.
  intros before after Hkeys. subst after. rewrite updateWorkItems_run. cbn [snd].
  fold before.
  eexists. split; [apply sprints_get_set_same|].
  cbn [workItems classifications sprintName lastSyncTime].
  split; [|split; [|split; [|split; [|split]]]]; try reflexivity.
  - intros i. now apply (record_all_get id WorkItem_value).
  - apply record_all_size_le.
  - intros other Hne. rewrite sprints_get_set_other by congruence.
    now apply store_with_other.
Qed.

(** X11. Work items with distinct ids that are recorded in a sprint
    without work items are returned by [getWorkItems] in the order in which
    they were given, and recording the same list once more changes none of
    them. *)
Theorem getWorkItems_in_order (created now created' now' : Z) (name : string)
  (items : list WorkItem) (sprints : Store) :
  fst (getWorkItems name sprints) = Normal [] ->
  NoDup (map id items) ->
  let after := snd (updateWorkItems created now name items sprints) in
  fst (getWorkItems name after) = Normal (map WorkItem_value items) /\
  fst (getWorkItems name (snd (updateWorkItems created' now' name items after)))
    = Normal (map WorkItem_value items).
Proof.
  intros Hempty Hnd after. subst after.
  rewrite (updateWorkItems_run created now). cbn [snd].
  rewrite (getWorkItems_empty name sprints created Hempty).
  set (s1 := Map_set (store_with created name sprints) (VStr name) _).
  assert (H1 : Map_get s1 (VStr name) = Some
            {| sprintName := sprintName (state_before created name sprints);
               workItems := record_all id WorkItem_value [] items;
               lastSyncTime := Date_at now;
               classifications := classifications (state_before created name sprints) |})
    by (subst s1; apply sprints_get_set_same).
  assert (Hvals : Map_values (record_all id WorkItem_value [] items)
                  = map WorkItem_value items).
  { rewrite (record_all_distinct id WorkItem_value items Hnd).
    unfold Map_values. rewrite map_map. reflexivity. }
  split.
  - unfold getWorkItems, bind, this_sprints, ret. rewrite H1. cbn [fst workItems].
    now rewrite Hvals.
  - rewrite (updateWorkItems_run created' now'). cbn [snd].
    unfold state_before at 2. rewrite H1. cbn [workItems].
    unfold getWorkItems, bind, this_sprints, ret.
    rewrite sprints_get_set_same. cbn [fst workItems].
    rewrite record_all_held; [now rewrite Hvals|].
    intros x Hx. rewrite (record_all_get id WorkItem_value []) by constructor.
    destruct (last_with_In id (id x) items (in_map id _ _ Hx)) as [y Hy].
    rewrite Hy. destruct (last_with_Some id _ _ _ Hy) as [HinY HidY].
    now rewrite (NoDup_map_injective id items y x Hnd HinY Hx HidY).
Qed.

Section StoreStatistics.

Variable toLowerCase : string -> string.

(** X12. On a store that the agent built, [getSprintStats] of a sprint
    that is there never throws and changes nothing; the totals are the
    numbers of work items and of classifications that [getWorkItems] and
    [getClassifications] return, the time is that of the last sync, and the
    four counts of the priority breakdown add up to the number of
    classifications. *)
Theorem getSprintStats_of_reachable (name : string) (sprints : Store)
  (state : SprintState) :
  reachable toLowerCase sprints ->
  Map_get sprints (VStr name) = Some state ->
  exists stats items results,
    getSprintStats name sprints = (Normal (Some stats), sprints) /\
    getWorkItems name sprints = (Normal items, sprints) /\
    getClassifications name sprints = (Normal results, sprints) /\
    stats_sprintName stats = name /\
    totalWorkItems stats = length items /\
    totalClassifications stats = length results /\
    stats_lastSyncTime stats = lastSyncTime state /\
    breakdown_total (priorityBreakdown stats) = totalClassifications stats.
Proof.
  intros Hreach Hget.
  pose proof (store_all_get _ _ _ _ (reachable_typed _ _ Hreach) Hget) as Htyped.
  destruct (typed_values _ Htyped) as [cs Hcs].
  eexists. exists (Map_values (workItems state)), (Map_values (classifications state)).
  split; [exact (getSprintStats_typed name sprints state cs Hget Hcs)|].
  unfold getWorkItems, getClassifications, bind, this_sprints, ret. rewrite Hget.
  cbn [stats_sprintName totalWorkItems totalClassifications stats_lastSyncTime
       priorityBreakdown].
  unfold breakdown_total, Map_size, Map_values.
  cbn [critical high medium low]. rewrite !length_map.
  repeat split; try reflexivity.
  rewrite count_suggestedPriority_total.
  rewrite <- (length_map snd (classifications state)).
  fold (Map_values (classifications state)). now rewrite Hcs, length_map.
Qed.

(** X13. What the [sync] command leaves in the store, on a store that the
    agent built: it never throws and its statistics are never null; every
    id of the synced items maps to the last item with that id and to the
    classification of that very item; the breakdown adds up to the number
    of classifications; and for a sprint that was not there, work items and
    classifications are as many as the items have distinct ids. *)
Theorem sync_classifies_what_it_records (created now created' : Z) (name : string)
  (items : list WorkItem) (sprints : Store) :
  reachable toLowerCase sprints ->
  exists stats after state,
    sync toLowerCase created now created' name items sprints
      = (Normal (Some stats), after) /\
    reachable toLowerCase after /\
    Map_get after (VStr name) = Some state /\
    lastSyncTime state = Date_at now /\
    (forall i : Z, In i (map id items) ->
       exists wi, last_with id i items = Some wi /\
         Map_get (workItems state) (VInt i) = Some (WorkItem_value wi) /\
         Map_get (classifications state) (VInt i)
           = Some (ClassificationResult_value (classifyWorkItem toLowerCase wi))) /\
    totalWorkItems stats = Map_size (workItems state) /\
    totalClassifications stats = Map_size (classifications state) /\
    breakdown_total (priorityBreakdown stats) = totalClassifications stats /\
    (Map_has sprints (VStr name) = false ->
     totalWorkItems stats = length (nodup Z.eq_dec (map id items)) /\
     totalClassifications stats = totalWorkItems stats).
Proof.
  intros Hreach.
  pose proof (reachable_updateWorkItems toLowerCase created now name items sprints Hreach)
    as Hreach1.
  pose proof (reachable_storeClassifications toLowerCase created' name items _ Hreach1)
    as Hreach2.
  unfold sync, bind.
  rewrite updateWorkItems_run in *. cbn [snd] in Hreach1, Hreach2.
  set (s1 := Map_set (store_with created name sprints) (VStr name) _) in *.
  set (st1 := {| sprintName := sprintName (state_before created name sprints);
                 workItems := record_all id WorkItem_value
                                (workItems (state_before created name sprints)) items;
                 lastSyncTime := Date_at now;
                 classifications := classifications (state_before created name sprints) |}).
  assert (H1 : Map_get s1 (VStr name) = Some st1)
    by (subst s1; apply sprints_get_set_same).
  assert (Hb : state_before created' name s1 = st1)
    by (unfold state_before; now rewrite H1).
  rewrite storeClassifications_run in *. cbn [snd] in Hreach2. rewrite Hb in *.
  set (s2 := Map_set (store_with created' name s1) (VStr name) _) in *.
  set (st2 := {| sprintName := sprintName st1;
                 workItems := workItems st1;
                 lastSyncTime := lastSyncTime st1;
                 classifications :=
                   record_all workItemId ClassificationResult_value
                     (classifications st1) (classifyWorkItems toLowerCase items) |}).
  assert (H2 : Map_get s2 (VStr name) = Some st2)
    by (subst s2; apply sprints_get_set_same).
  pose proof (store_all_get _ _ _ _ (reachable_typed _ _ Hreach2) H2) as Htyped.
  destruct (typed_values _ Htyped) as [cs Hcs].
  pose proof (reachable_store_ok (fun _ => EmptyString) toLowerCase sprints Hreach) as Hok.
  destruct (state_before_ok (fun _ => EmptyString) created name sprints Hok)
    as (_ & (wids & Hwk & _) & _ & (cids & Hck & _) & _ & _).
  eexists. exists s2, st2.
  split; [exact (getSprintStats_typed name s2 st2 cs H2 Hcs)|].
  split; [exact Hreach2|]. split; [exact H2|]. split; [reflexivity|].
  cbn [totalWorkItems totalClassifications priorityBreakdown].
  split; [|split; [reflexivity | split; [reflexivity | split]]].
  - intros i Hin. destruct (last_with_In id i items Hin) as [wi Hwi].
    exists wi. split; [exact Hwi|]. subst st2 st1. cbn [workItems classifications].
    split.
    + rewrite (record_all_get id WorkItem_value), Hwi; [reflexivity|].
      exact (integer_keys_no_float _ _ Hwk).
    + rewrite (record_all_get workItemId ClassificationResult_value);
        [|exact (integer_keys_no_float _ _ Hck)].
      rewrite classifyWorkItems_map.
      rewrite (last_with_map id workItemId (classifyWorkItem toLowerCase))
        by reflexivity.
      now rewrite Hwi.
  - unfold breakdown_total. cbn [critical high medium low].
    rewrite count_suggestedPriority_total. unfold Map_size.
    rewrite <- (length_map snd (classifications st2)).
    fold (Map_values (classifications st2)). now rewrite Hcs, length_map.
  - intros Hnew. apply Map_has_false in Hnew.
    assert (Hfresh : state_before created name sprints = fresh_state created name)
      by (unfold state_before; now rewrite Hnew).
    subst st2 st1. cbn [workItems classifications]. rewrite Hfresh.
    cbn [fresh_state workItems classifications].
    rewrite (record_all_size id WorkItem_value),
            (record_all_size workItemId ClassificationResult_value).
    split; [reflexivity|].
    rewrite classifyWorkItems_map, map_map. reflexivity.
Qed.

End StoreStatistics.

(** X14. [getSprintStats] throws a [TypeError], and leaves the store as it
    is, when a classification of the sprint is [null] or [undefined], as an
    imported snapshot can hold one: [importState] does not look at the
    classifications. *)
Theorem getSprintStats_null_classification (name : string) (sprints : Store)
  (state : SprintState) :
  Map_get sprints (VStr name) = Some state ->
  In VNull (Map_values (classifications state))
  \/ In VUndefined (Map_values (classifications state)) ->
  getSprintStats name sprints = (Throw TypeError, sprints).
Proof.
  intros Hget Hin. unfold getSprintStats, bind, this_sprints, lift.
  rewrite Hget, (count_priority_throw 1 _ Hin). reflexivity.
Qed.

(** ** Import, sprint by sprint *)

Lemma forEach_app {A : Type} (l1 l2 : list A) (callback : A -> M unit) (s : Store) :
  forEach (l1 ++ l2) callback s =
    match forEach l1 callback s with
    | (Normal _, s') => forEach l2 callback s'
    | (Throw e, s') => (Throw e, s')
    end.
Proof.
  revert s. induction l1 as [|x l1 IH]; intros s; [reflexivity|].
  cbn [app forEach]. unfold bind.
  destruct (callback x s) as [[u | e] s']; [apply IH | reflexivity].
Qed.

Section ImportSteps.

Variable text : Type.
Variable JSON_parse : text -> option jsval.
Variable Date_new : jsval -> completion Date.

(** The import of a sprint leaves the store as it is when it throws. *)
Lemma import_sprint_throw (sprint : jsval) (acc acc' : Store) (e : Error) :
  import_sprint Date_new sprint acc = (Throw e, acc') -> acc' = acc.
Proof.
  unfold import_sprint, bind, lift, this_sprints, set_this_sprints.
  destruct (member sprint "name"); [|intros H; now inversion H].
  destruct (member sprint "workItems"); [|intros H; now inversion H].
  destruct (Map_new _); [|intros H; now inversion H].
  destruct (member sprint "classifications"); [|intros H; now inversion H].
  destruct (Map_new _); [|intros H; now inversion H].
  destruct (member sprint "lastSyncTime"); [|intros H; now inversion H].
  destruct (Date_new _); [|intros H; now inversion H].
  intros H; inversion H.
Qed.

(** X15. [importState] is not atomic. Once the text has parsed, the store
    is emptied and the sprints of the snapshot are imported one after the
    other; when the import of one throws, the error is rethrown and the
    store holds the sprints before it, and nothing of what it held before
    the call. *)
Theorem importState_stops_at_first_failure (json : text) (data : jsval)
  (good rest : list jsval) (bad : jsval) (e : Error) (imported old : Store) :
  JSON_parse json = Some data ->
  member data "sprints" = Normal (VArr (good ++ bad :: rest)) ->
  forEach good (import_sprint Date_new) [] = (Normal tt, imported) ->
  fst (import_sprint Date_new bad imported) = Throw e ->
  importState text JSON_parse Date_new json old = (Throw e, imported).
Proof.
  intros Hparse Hsprints Hgood Hbad.
  unfold importState, tryCatch, bind, lift, set_this_sprints, throw.
  rewrite Hparse, Hsprints. cbn [sprints_forEach].
  rewrite forEach_app, Hgood. cbn [forEach]. unfold bind.
  destruct (import_sprint Date_new bad imported) as [[u | e'] s'] eqn:E;
    cbn [fst] in Hbad; [discriminate|].
  injection Hbad as ->. now rewrite (import_sprint_throw _ _ _ _ E).
Qed.

End ImportSteps.

(** ** Commands *)

Lemma String_split_cons (s : string) (separator : ascii) :
  exists part parts, String_split s separator = part :: parts.
Proof.
  destruct s as [|c s]; cbn [String_split]; [now eexists; eexists|].
  destruct (Ascii.eqb c separator); eexists; eexists; reflexivity.
Qed.

Lemma String_split_without (s : string) (separator : ascii) :
  contains_char separator s = false -> String_split s separator = [s].
Proof.
  induction s as [|c s IH]; cbn [contains_char String_split]; [reflexivity|].
  intros H. apply orb_false_iff in H. destruct H as [Hc Hs].
  rewrite Hc, (IH Hs). reflexivity.
Qed.

Lemma String_split_append (a b : string) (separator : ascii) :
  contains_char separator a = false ->
  String_split (a ++ String separator b) separator = a :: String_split b separator.
Proof.
  induction a as [|c a IH]; cbn [contains_char append String_split].
  - intros _. now rewrite Ascii.eqb_refl.
  - intros H. apply orb_false_iff in H. destruct H as [Hc Ha].
    rewrite Hc, (IH Ha). reflexivity.
Qed.

Lemma Array_join_cons (x y : string) (l : list string) (separator : string) :
  Array_join (x :: y :: l) separator
  = (x ++ separator ++ Array_join (y :: l) separator)%string.
Proof. reflexivity. Qed.

(** Joining the parts of a string with the separator gives the string. *)
Lemma Array_join_String_split (s : string) (separator : ascii) :
  Array_join (String_split s separator) (String separator EmptyString) = s.
Proof.
  induction s as [|c s IH]; [reflexivity|].
  cbn [String_split].
  destruct (String_split_cons s separator) as (part & parts & E).
  rewrite E in *. cbn [hd tl].
  destruct (Ascii.eqb c separator) eqn:Hc.
  - apply Ascii.eqb_eq in Hc. subst c.
    rewrite Array_join_cons, IH. reflexivity.
  - destruct parts as [|p parts].
    + cbn [Array_join] in *. now rewrite IH.
    + rewrite Array_join_cons in *. rewrite <- IH. reflexivity.
Qed.

Lemma command_sprintName_space (command rest otherwise : string) :
  contains_char " " command = false ->
  command_sprintName (command ++ " " ++ rest) otherwise = rest /\
  command_sprintName command otherwise = otherwise.
Proof.
  intros Hc. unfold command_sprintName.
  cbn [append]. rewrite (String_split_append command rest " " Hc).
  rewrite (String_split_without command " " Hc).
  destruct (String_split_cons rest " ") as (part & parts & E).
  split; [|reflexivity].
  cbn [length tl]. rewrite E. cbn [length Nat.ltb Nat.leb]. rewrite <- E.
  apply Array_join_String_split.
Qed.

(** X16. The sprint name of a command is the text after its first space,
    with every later space kept; a text without a space names no sprint,
    and the default is taken. The parts of a text, joined again with
    spaces, are the text. *)
Theorem command_sprintName_rest (command rest otherwise : string) :
  contains_char " " command = false ->
  command_sprintName (command ++ " " ++ rest) otherwise = rest /\
  command_sprintName command otherwise = otherwise /\
  Array_join (String_split rest " ") " " = rest.
Proof.
  intros Hc. destruct (command_sprintName_space command rest otherwise Hc) as [H1 H2].
  split; [exact H1|]. split; [exact H2|]. apply Array_join_String_split.
Qed.

Lemma contains_char_append (c : ascii) (a b : string) :
  contains_char c (a ++ b) = contains_char c a || contains_char c b.
Proof.
  induction a as [|x a IH]; cbn [append contains_char]; [reflexivity|].
  now rewrite IH, orb_assoc.
Qed.

(** A text with a space is a part without a space, the space, and the rest. *)
Lemma first_space (text : string) :
  contains_char " " text = true ->
  exists command rest,
    text = (command ++ " " ++ rest)%string /\ contains_char " " command = false.
Proof.
  induction text as [|c text IH]; cbn [contains_char]; [discriminate|].
  destruct (Ascii.eqb c " ") eqn:E; cbn [orb].
  - intros _. apply Ascii.eqb_eq in E. subst c. now exists EmptyString, text.
  - intros H. destruct (IH H) as (command & rest & -> & Hc).
    exists (String c command), rest. split; [reflexivity|].
    cbn [contains_char]. now rewrite E, Hc.
Qed.

(** X17. The text of a command is lowercased before it is parsed, so it
    holds no capital C, and a sprint name that is typed is never the
    default "Current Sprint": the [sync] command asks Azure DevOps for
    all work items, without a sprint, exactly when the text has no space. *)
Theorem sync_sprint_default (text : string) :
  contains_char "C" text = false ->
  (sync_sprint (command_sprintName text "Current Sprint") = None
   <-> contains_char " " text = false).
Proof.
  intros HC. split.
  - intros Hnone. destruct (contains_char " " text) eqn:Hsp; [|reflexivity].
    destruct (first_space text Hsp) as (command & rest & -> & Hc).
    rewrite (proj1 (command_sprintName_space command rest "Current Sprint" Hc)) in Hnone.
    unfold sync_sprint in Hnone.
    destruct (String.eqb rest "Current Sprint") eqn:E; [|discriminate].
    apply String.eqb_eq in E. subst rest.
    rewrite !contains_char_append in HC. cbn in HC.
    rewrite !orb_true_r in HC. discriminate.
  - intros Hsp.
    rewrite (proj2 (command_sprintName_space text EmptyString "Current Sprint" Hsp)).
    reflexivity.
Qed.

(* ================================================================== *)
(** * Part VII: the services around the classifier and the store *)
(* ================================================================== *)

(** ** Tags, written to Azure DevOps and read back *)

Lemma String_split_joined (tags : list string) :
  Forall (fun tag => contains_char ";" tag = false) tags ->
  String_split (Array_join tags "; ") ";" =
    match tags with
    | [] => [EmptyString]
    | tag :: tags' => tag :: map (String " ") tags'
    end.
Proof.
  induction 1 as [|tag tags Htag Htags IH]; [reflexivity|].
  destruct tags as [|tag' tags].
  - cbn [Array_join map]. now apply String_split_without.
  - rewrite Array_join_cons.
    change ("; " ++ Array_join (tag' :: tags) "; ")%string
      with (String ";" (String " " (Array_join (tag' :: tags) "; "))).
    rewrite (String_split_append _ _ _ Htag).
    cbn [String_split]. rewrite IH.
    change (Ascii.eqb " " ";") with false. cbn [hd tl map]. reflexivity.
Qed.

Lemma tag_ok_true (tag : string) :
  tag_ok tag = true ->
  tag <> EmptyString /\ trim tag = tag /\ contains_char ";" tag = false.
Proof.
  unfold tag_ok. rewrite !andb_true_iff, !negb_true_iff, String.eqb_neq, String.eqb_eq.
  tauto.
Qed.

Lemma fields_tags_joined (tags : list string) :
  Forall (fun tag => tag_ok tag = true) tags ->
  fields_tags (Some (Array_join tags "; ")) = tags.
Proof.
  intros Hok. unfold fields_tags.
  rewrite String_split_joined
    by (eapply Forall_impl; [|exact Hok]; intros t Ht; now apply tag_ok_true in Ht).
  destruct Hok as [|tag tags Htag Htags]; [reflexivity|].
  cbn [map]. rewrite map_map.
  destruct (tag_ok_true _ Htag) as (Hne & Htrim & _).
  rewrite Htrim. cbn [filter].
  apply String.eqb_neq in Hne. rewrite Hne. cbn [negb]. f_equal.
  induction Htags as [|t ts Ht Hts IH]; [reflexivity|].
  destruct (tag_ok_true _ Ht) as (Hne' & Htrim' & _).
  cbn [map filter].
  change (trim (String " " t)) with (trim t). rewrite Htrim'.
  apply String.eqb_neq in Hne'. rewrite Hne'. cbn [negb]. now rewrite IH.
Qed.

Lemma rule_tags_ok : forallb tag_ok rule_tags = true.
Proof. vm_compute; reflexivity. Qed.

(** X18. The tags that [updateWorkItem] writes are the tags that
    [getWorkItems] reads. For a list of tags that is not empty, each of
    them not empty, without white space at its ends and without a
    semicolon, the first operation of the PATCH request sets [System.Tags]
    to a string from which the field parsing of [getWorkItems] gets the
    same tags back, in the same order. *)
Theorem tags_written_are_read_back (tags : list string) (priority : option Z) :
  tags <> [] ->
  Forall (fun tag => tag_ok tag = true) tags ->
  exists s more,
    updateWorkItem_patch (Some tags) priority
      = Some ({| op := "add"; path := "/fields/System.Tags"; value := VStr s |}
              :: more) /\
    fields_tags (Some s) = tags.
Proof.
  intros Hne Hok. exists (Array_join tags "; ").
  unfold updateWorkItem_patch, updateWorkItem_updates, push.
  destruct tags as [|tag tags]; [congruence|].
  cbn [length Nat.ltb Nat.leb app].
  destruct priority as [p|]; [destruct (negb (Z.eqb p 0))|];
    eexists; (split; [reflexivity | now apply fields_tags_joined]).
Qed.

Section Notifications.

Variable toLowerCase : string -> string.

(** X19. The tags that the classifier suggests can be written to Azure
    DevOps without loss: each is not empty, has no white space at its ends
    and no semicolon, and the tags joined by [updateWorkItem] are parsed
    back by [getWorkItems] as they were. *)
Theorem suggestedTags_survive_System_Tags (w : WorkItem) :
  let tags := suggestedTags (classifyWorkItem toLowerCase w) in
  Forall (fun tag => tag_ok tag = true) tags /\
  fields_tags (Some (Array_join tags "; ")) = tags.
Proof.
  intros tags.
  assert (Hok : Forall (fun tag => tag_ok tag = true) tags).
  { subst tags. destruct (classifyWorkItem_rules toLowerCase w) as (Ht & _ & _).
    rewrite Ht.
    destruct (rulesLocals_table (tests_of toLowerCase w) (type w)) as (Hs & _).
    apply Forall_forall. intros tag Hin.
    pose proof (subsequence_In _ _ _ Hs Hin) as Hrule.
    pose proof rule_tags_ok as Hall. rewrite forallb_forall in Hall.
    now apply Hall. }
  split; [exact Hok | now apply fields_tags_joined].
Qed.

(** ** The batch payload for Copilot Studio *)

Lemma batch_items_paired (items : list WorkItem) (before : list ClassificationResult) :
  Forall2 (fun wi b =>
             batch_id b = id wi /\ batch_title b = title wi /\
             batch_classification b = Some (classifyWorkItem toLowerCase wi))
          items
          (batch_items (length before) items
             (before ++ map (classifyWorkItem toLowerCase) items)).
Proof.
  revert before. induction items as [|wi items IH]; intros before; [constructor|].
  cbn [batch_items map]. constructor.
  - cbn [batch_id batch_title batch_classification].
    repeat split. rewrite nth_error_app2 by lia. now rewrite Nat.sub_diag.
  - specialize (IH (before ++ [classifyWorkItem toLowerCase wi])).
    rewrite length_app, Nat.add_1_r, <- app_assoc in IH. exact IH.
Qed.

(** X20. The payload that [notifyBatchProcessing] posts for work items
    and the results that [classifyWorkItems] gave for them: the four counts
    of the summary add up to [totalProcessed], the number of work items,
    and every work item is listed, in order, with its own classification.
    Without an endpoint or without a key nothing is posted. *)
Theorem notifyBatchProcessing_of_classified (endpoint apiKey : option string)
  (items : list WorkItem) :
  let posted := notifyBatchProcessing endpoint apiKey items
                  (classifyWorkItems toLowerCase items) in
  (truthy endpoint = false \/ truthy apiKey = false -> posted = None) /\
  (truthy endpoint = true -> truthy apiKey = true ->
   exists data,
     posted = Some data /\
     totalProcessed data = length items /\
     breakdown_total (summary data) = totalProcessed data /\
     Forall2 (fun wi b =>
                batch_id b = id wi /\ batch_title b = title wi /\
                batch_classification b = Some (classifyWorkItem toLowerCase wi))
             items (batch_workItems data)).
Proof.
  intros posted. subst posted. unfold notifyBatchProcessing. split.
  - intros [-> | ->]; cbn [negb orb]; [reflexivity | now rewrite orb_true_r].
  - intros -> ->. cbn [negb orb]. eexists. split; [reflexivity|].
    cbn [totalProcessed summary batch_workItems].
    split; [reflexivity|]. split.
    + unfold breakdown_total. cbn [critical high medium low].
      rewrite count_suggestedPriority_total, classifyWorkItems_map.
      apply length_map.
    + rewrite classifyWorkItems_map. exact (batch_items_paired items []).
Qed.

(** ** The cards for Teams *)

Lemma count_suggestedPriority_positive (numeral : Z) (cs : list ClassificationResult) :
  (0 < count_suggestedPriority numeral cs)%nat <->
  exists c, In c cs /\ Priority_numeral (suggestedPriority c) = numeral.
Proof.
  unfold count_suggestedPriority. split.
  - intros H.
    destruct (filter _ cs) as [|c l] eqn:E; [cbn in H; lia|].
    assert (Hin : In c (filter (fun c => Z.eqb (Priority_numeral (suggestedPriority c))
                                               numeral) cs))
      by (rewrite E; now left).
    apply filter_In in Hin. destruct Hin as [Hin Hc]. apply Z.eqb_eq in Hc.
    now exists c.
  - intros (c & Hin & Hc).
    assert (Hf : In c (filter (fun c => Z.eqb (Priority_numeral (suggestedPriority c))
                                              numeral) cs))
      by (apply filter_In; split; [exact Hin | now apply Z.eqb_eq]).
    destruct (filter _ cs); [destruct Hf | cbn; lia].
Qed.

(** X21. The card that [sendClassificationUpdate] builds for a result of
    the classifier names a priority (never "Unknown") and has the colour of
    one (never the gray of the default); priorities that differ get names
    and colours that differ; and the fact "Suggested Tags" reads "None"
    exactly when no tag was suggested. *)
Theorem classification_card_of_classified (w : WorkItem) :
  let r := classifyWorkItem toLowerCase w in
  let card := sendClassificationUpdate_card r in
  fact_Suggested_Priority card <> "Unknown"%string /\
  themeColor card <> "808080"%string /\
  (fact_Suggested_Tags card = "None"%string <-> suggestedTags r = []) /\
  (forall p q : Priority,
     getPriorityName (Priority_numeral p) = getPriorityName (Priority_numeral q)
     \/ getPriorityColor (Priority_numeral p) = getPriorityColor (Priority_numeral q) ->
     p = q).
Proof.
  intros r card. subst card r. unfold sendClassificationUpdate_card.
  cbn [fact_Suggested_Priority themeColor fact_Suggested_Tags].
  destruct (classifyWorkItem_rules toLowerCase w) as (Ht & Hp & _). rewrite Ht, Hp.
  pose proof (rules_table
    (fun t ty =>
       let l := rulesLocals t ty in
       Bool.eqb
         (String.eqb (match Array_join (l_suggestedTags l) ", " with
                      | EmptyString => "None"
                      | s => s
                      end) "None")
         (match l_suggestedTags l with [] => true | _ :: _ => false end))
    ltac:(vm_compute; reflexivity) (tests_of toLowerCase w) (type w)) as Htags.
  cbv zeta in Htags. apply Bool.eqb_prop in Htags.
  split; [|split; [|split]].
  - destruct (l_suggestedPriority _); discriminate.
  - destruct (l_suggestedPriority _); discriminate.
  - rewrite <- String.eqb_eq, Htags.
    destruct (l_suggestedTags _); split; congruence.
  - intros p q [H | H]; destruct p, q; try reflexivity; discriminate H.
Qed.

(** X22. The card that [sendBatchSummary] builds for work items and the
    results that [classifyWorkItems] gave for them: the critical and the
    high count together are at most the total; the colour is "0078D4", the
    blue that [getPriorityColor] gives Medium, exactly when a work item was
    classified Critical, and "28A745", the green of Low, when none was. It
    is never the red of Critical. *)
Theorem batch_summary_of_classified (items : list WorkItem) :
  let card := sendBatchSummary_card items (classifyWorkItems toLowerCase items) in
  (criticalCount card + highCount card <= totalCount card)%nat /\
  totalCount card = length items /\
  (summary_themeColor card = getPriorityColor 3 <->
   exists wi, In wi items /\
              suggestedPriority (classifyWorkItem toLowerCase wi) = Critical) /\
  (summary_themeColor card = getPriorityColor 4 <->
   forall wi, In wi items ->
              suggestedPriority (classifyWorkItem toLowerCase wi) <> Critical) /\
  summary_themeColor card <> getPriorityColor 1.
Proof.
  intros card. subst card. unfold sendBatchSummary_card.
  cbn [criticalCount highCount totalCount summary_themeColor].
  rewrite classifyWorkItems_map.
  set (cs := map (classifyWorkItem toLowerCase) items).
  pose proof (count_suggestedPriority_total cs) as Htotal.
  assert (Hlen : length cs = length items) by apply length_map.
  assert (Hcrit : (0 < count_suggestedPriority 1 cs)%nat <->
                  exists wi, In wi items /\
                    suggestedPriority (classifyWorkItem toLowerCase wi) = Critical).
  { rewrite count_suggestedPriority_positive. subst cs. split.
    - intros (c & Hin & Hc). apply in_map_iff in Hin. destruct Hin as (wi & <- & Hin).
      exists wi. split; [exact Hin|]. now apply Priority_numeral_inj.
    - intros (wi & Hin & Hc). exists (classifyWorkItem toLowerCase wi).
      split; [now apply in_map | now rewrite Hc]. }
  split; [lia|]. split; [reflexivity|].
  destruct (0 <? count_suggestedPriority 1 cs)%nat eqn:E.
  - apply Nat.ltb_lt in E. split; [|split].
    + split; [intros _; now apply Hcrit | reflexivity].
    + split; [discriminate|]. intros Hnone.
      apply Hcrit in E. destruct E as (wi & Hin & Hc). now destruct (Hnone wi Hin).
    + discriminate.
  - apply Nat.ltb_ge in E. split; [|split].
    + split; [discriminate|]. intros H. apply Hcrit in H. lia.
    + split; [|reflexivity]. intros _ wi Hin Hc.
      assert (0 < count_suggestedPriority 1 cs)%nat by (apply Hcrit; now exists wi).
      lia.
    + discriminate.
Qed.

End Notifications.

(* ================================================================== *)
(** * Part VIII: the further properties, on examples *)
(* ================================================================== *)

Lemma updateWorkItems_merges_witness :
  exists state,
    Map_get (snd (updateWorkItems 3000 4000 "Sprint 24" [wi_cosmetic_other_id]
                    example_store))
            (VStr "Sprint 24") = Some state /\
    Map_get (workItems state) (VInt 7) = Some (WorkItem_value wi_production_down) /\
    Map_get (workItems state) (VInt 9) = Some (WorkItem_value wi_cosmetic_other_id) /\
    classifications state = classifications (state_before 3000 "Sprint 24" example_store) /\
    lastSyncTime state = Date_at 4000.
Proof.
  destruct (updateWorkItems_merges 3000 4000 "Sprint 24" [wi_cosmetic_other_id]
              example_store) as (state & H1 & H2 & _ & H4 & _ & H6 & _).
  - vm_compute. repeat constructor.
  - exists state. split; [exact H1|]. split; [|split; [|split]].
    + rewrite H2. vm_compute. reflexivity.
    + rewrite H2. vm_compute. reflexivity.
    + exact H4.
    + exact H6.
Defined.

Lemma getWorkItems_in_order_witness :
  let items := [wi_production_down; wi_cosmetic] in
  let after := snd (updateWorkItems 1 2 "Sprint 24" items []) in
  fst (getWorkItems "Sprint 24" after) = Normal (map WorkItem_value items) /\
  fst (getWorkItems "Sprint 24" (snd (updateWorkItems 3 4 "Sprint 24" items after)))
    = Normal (map WorkItem_value items).
Proof.
  apply (getWorkItems_in_order 1 2 3 4 "Sprint 24" [wi_production_down; wi_cosmetic] []).
  - reflexivity.
  - constructor; [intros [H | []]; discriminate H|].
    constructor; [intros [] | constructor].
Defined.

Lemma getSprintStats_of_reachable_witness :
  exists stats,
    getSprintStats "Sprint 24" example_store = (Normal (Some stats), example_store) /\
    stats_lastSyncTime stats = Date_at 2000 /\
    breakdown_total (priorityBreakdown stats) = totalClassifications stats.
Proof.
  destruct (getSprintStats_of_reachable toLowerCase_ascii "Sprint 24" example_store
              (state_before 0 "Sprint 24" example_store)
              example_store_reachable)
    as (stats & items & results & H1 & _ & _ & _ & _ & _ & H7 & H8).
  - vm_compute. reflexivity.
  - exists stats. split; [exact H1|]. split; [|exact H8].
    rewrite H7. vm_compute. reflexivity.
Defined.

Lemma getSprintStats_null_classification_witness :
  let imported :=
    importState (option jsval) example_parse example_Date_new
      (Some snapshot_null_classification) [] in
  fst imported = Normal tt /\
  getSprintStats "A" (snd imported) = (Throw TypeError, snd imported).
Proof.
  split; [vm_compute; reflexivity|].
  apply (getSprintStats_null_classification "A" _
           {| sprintName := VStr "A"; workItems := []; lastSyncTime := Date_at 5;
              classifications := [(VInt 1, VNull)] |}).
  - vm_compute. reflexivity.
  - left. left. reflexivity.
Defined.

Lemma sync_classifies_what_it_records_witness :
  exists stats after,
    sync toLowerCase_ascii 1 2 3 "Sprint 24" [wi_production_down; wi_cosmetic] []
      = (Normal (Some stats), after) /\
    reachable toLowerCase_ascii after /\
    breakdown_total (priorityBreakdown stats) = totalClassifications stats /\
    totalClassifications stats = totalWorkItems stats.
Proof.
  destruct (sync_classifies_what_it_records toLowerCase_ascii 1 2 3 "Sprint 24"
              [wi_production_down; wi_cosmetic] [] (reachable_new _))
    as (stats & after & state & H1 & H2 & _ & _ & _ & _ & _ & H8 & H9).
  exists stats, after. split; [exact H1|]. split; [exact H2|]. split; [exact H8|].
  exact (proj2 (H9 eq_refl)).
Defined.

Lemma importState_stops_at_first_failure_witness :
  importState (option jsval) example_parse example_Date_new
    (Some snapshot_null_sprint) example_store
  = (Throw TypeError,
     [(VStr "A", {| sprintName := VStr "A"; workItems := [];
                    lastSyncTime := Invalid_Date; classifications := [] |})]).
Proof.
  apply (importState_stops_at_first_failure (option jsval) example_parse
           example_Date_new (Some snapshot_null_sprint) snapshot_null_sprint
           [VObj [("name", VStr "A")]] [VObj [("name", VStr "B")]] VNull TypeError);
    reflexivity.
Defined.

Lemma command_sprintName_rest_witness :
  command_sprintName "sync sprint 24" "Current Sprint" = "sprint 24"%string /\
  command_sprintName "sync" "Current Sprint" = "Current Sprint"%string /\
  Array_join (String_split "sprint 24" " ") " " = "sprint 24"%string.
Proof.
  apply (command_sprintName_rest "sync" "sprint 24" "Current Sprint").
  reflexivity.
Defined.

Lemma tags_written_are_read_back_witness :
  exists s more,
    updateWorkItem_patch (Some ["Critical"; "UI"]%string) (Some 1%Z)
      = Some ({| op := "add"; path := "/fields/System.Tags"; value := VStr s |}
              :: more) /\
    fields_tags (Some s) = ["Critical"; "UI"]%string.
Proof.
  apply (tags_written_are_read_back ["Critical"; "UI"]%string (Some 1%Z)).
  - discriminate.
  - repeat constructor.
Defined.

Lemma notifyBatchProcessing_of_classified_witness :
  exists data,
    notifyBatchProcessing (Some "https://copilot.example") (Some "key")
      [wi_production_down; wi_cosmetic]
      (classifyWorkItems toLowerCase_ascii [wi_production_down; wi_cosmetic])
    = Some data /\
    totalProcessed data = 2%nat /\
    breakdown_total (summary data) = totalProcessed data.
Proof.
  destruct (proj2 (notifyBatchProcessing_of_classified toLowerCase_ascii
                     (Some "https://copilot.example"%string) (Some "key"%string)
                     [wi_production_down; wi_cosmetic]) eq_refl eq_refl)
    as (data & H1 & H2 & H3 & _).
  exists data. split; [exact H1|]. split; [exact H2 | exact H3].
Defined.

Lemma sync_sprint_default_witness :
  (sync_sprint (command_sprintName "sync" "Current Sprint") = None
   <-> contains_char " " "sync" = false) /\
  sync_sprint (command_sprintName "sync current sprint" "Current Sprint")
  = Some "current sprint"%string.
Proof.
  split; [|reflexivity].
  apply (sync_sprint_default "sync"). reflexivity.
Defined.
